(** * Rule engine: context-based rule filtering

    A shallow embedding of the rule engine ([operatorsPredicate],
    [isContextValid], [validateRule], [validateRules]) together with the
    fragment of the JavaScript semantics its code relies on: values with
    reference identity for arrays and objects, IEEE 754 doubles, the
    abstract operations ToBoolean, ToString, ToPrimitive and ToNumber
    with the [TypeError] they raise on an object that has no usable
    [toString], strict equality, SameValueZero,
    [Array.prototype.includes], [String.prototype.includes],
    [Date.parse] and exceptions.

    Strings are sequences of code units below 256 ([string]); the value
    universe is structured data (undefined, null, booleans, numbers,
    strings, arrays, plain objects). What the engine imports from
    [@medusajs/utils] is either modelled from the specification
    ([RuleOperator], [isString], [MedusaError]) or a parameter
    ([pickValueFromObject], a lookup that returns a value or raises);
    what ECMAScript leaves to the implementation is a parameter too
    ([Engine]).

    The computations of the order summary card and of the system tax
    provider, which the same source file holds, are embedded as well
    ([SummaryCard], [SystemTaxService]). *)

From Stdlib Require Import ZArith List String Ascii Bool Lia.
From Stdlib Require Import SpecFloat DecimalString.
Import ListNotations.
Local Open Scope string_scope.
Local Open Scope list_scope.

(** ** Exceptions *)

(** Modelled from the spec: [MedusaError] of [@medusajs/utils] and its
    [Types]; the engine only raises [INVALID_DATA]. *)
Inductive MedusaErrorType := INVALID_DATA | NOT_FOUND | UNEXPECTED_STATE.

Inductive JSError :=
| MedusaError (type : MedusaErrorType) (message : string)
| TypeError (message : string).

(** The outcome of running a piece of code: normal completion with a
    value, or an exception. *)
Inductive Outcome (A : Type) :=
| Ok (a : A)
| Throw (e : JSError).
Arguments Ok {A} a.
Arguments Throw {A} e.

Definition bind {A B} (c : Outcome A) (k : A -> Outcome B) : Outcome B :=
  match c with
  | Ok a => k a
  | Throw e => Throw e
  end.

Notation "x <- c ;; k" := (bind c (fun x => k))
  (at level 61, c at next level, right associativity).

Definition completes {A} (c : Outcome A) : bool :=
  match c with Ok _ => true | Throw _ => false end.

Definition omap {A B} (f : A -> B) (c : Outcome A) : Outcome B :=
  x <- c ;; Ok (f x).

(** The operator [a && b] on two expressions that may raise: [b] is
    evaluated only when [a] gives true. *)
Definition and_then (a b : Outcome bool) : Outcome bool :=
  x <- a ;; if x then b else Ok false.

Infix "&&&" := and_then (at level 40, left associativity).

(** ** Numbers: IEEE 754 binary64 *)

Module Num.
Local Open Scope Z_scope.

Definition number := spec_float.
Definition prec := 53.
Definition emax := 1024.

Definition NaN : number := S754_nan.
Definition Infinity (neg : bool) : number := S754_infinity neg.
Definition zero (neg : bool) : number := S754_zero neg.

(** The double nearest to [(-1)^neg * m * 10^e] (ties to even). *)
Definition of_decimal (neg : bool) (m : Z) (e : Z) : number :=
  match m with
  | Zpos p =>
      if 0 <=? e
      then binary_round prec emax neg (p * Z.to_pos (10 ^ e)) 0
      else
        let '(q, e', l) :=
          SFdiv_core_binary prec emax (Zpos p) 0 (10 ^ (- e)) 0 in
        binary_round_aux prec emax neg q e' l
  | _ => zero neg
  end.

Definition of_Z (z : Z) : number :=
  binary_normalize prec emax z 0 false.

Definition isNaN (x : number) : bool :=
  match x with S754_nan => true | _ => false end.

(** The relational operators on numbers. *)
Definition lt (x y : number) : bool := SFltb x y.
Definition le (x y : number) : bool := SFleb x y.
Definition gt (x y : number) : bool := SFltb y x.
Definition ge (x y : number) : bool := SFleb y x.

(** Number::equal: [NaN] differs from everything, [+0] equals [-0]. *)
Definition equal (x y : number) : bool := SFeqb x y.

(** Number::sameValueZero: as [equal], but [NaN] is the same as [NaN]. *)
Definition sameValueZero (x y : number) : bool :=
  (isNaN x && isNaN y) || equal x y.

(** The mathematical integer obtained by truncating a finite number
    toward zero; [None] for [NaN] and the infinities. *)
Definition truncate (x : number) : option Z :=
  match x with
  | S754_zero _ => Some 0
  | S754_finite s m e =>
      let a := if 0 <=? e then Z.shiftl (Zpos m) e
               else Z.shiftr (Zpos m) (- e) in
      Some (if s then - a else a)
  | _ => None
  end.
End Num.
Export Num(number).

(** ** Values *)

(** Arrays and objects carry the address they live at: two of them are
    the same value exactly when they are the same reference. *)
#[local] Set Warnings "-register-all".
Inductive JSValue :=
| JSUndefined
| JSNull
| JSBoolean (b : bool)
| JSNumber (n : number)
| JSString (s : string)
| JSArray (loc : positive) (elems : list JSValue)
| JSObject (loc : positive) (props : list (string * JSValue)).

(** What the JavaScript engine leaves to the implementation, or what is
    specified but not needed in closed form here. *)
Class Engine := {
  (** Number::toString(x, 10). *)
  NumberToString : number -> string;
  (** The result of [Date.parse] on a string that is not one of the
      date-only forms of the Date Time String Format ([None] is NaN):
      date-time forms, which depend on the local time zone, and the
      implementation-specific formats and heuristics. *)
  DateParseFallback : string -> option Z
}.

(** ** Text *)

Module Text.
Local Open Scope Z_scope.

Definition code (c : ascii) : Z := Z.of_N (N_of_ascii c).

Definition isChar (c d : ascii) : bool := Ascii.eqb c d.

(** WhiteSpace and LineTerminator code units below 256. *)
Definition isWhiteSpace (c : ascii) : bool :=
  let n := code c in
  ((9 <=? n) && (n <=? 13)) || (n =? 32) || (n =? 160).

Fixpoint trimStart (l : list ascii) : list ascii :=
  match l with
  | c :: l' => if isWhiteSpace c then trimStart l' else l
  | [] => []
  end.

Definition trim (l : list ascii) : list ascii :=
  rev (trimStart (rev (trimStart l))).

Definition hexDigit (c : ascii) : option Z :=
  let n := code c in
  if (48 <=? n) && (n <=? 57) then Some (n - 48)
  else if (97 <=? n) && (n <=? 102) then Some (n - 87)
  else if (65 <=? n) && (n <=? 70) then Some (n - 55)
  else None.

Definition radixDigit (radix : Z) (c : ascii) : option Z :=
  match hexDigit c with
  | Some d => if d <? radix then Some d else None
  | None => None
  end.

(** The longest prefix of digits in the given radix: its value, its
    length and what follows it. *)
Fixpoint takeDigits (radix : Z) (acc : Z) (n : Z) (l : list ascii)
  : Z * Z * list ascii :=
  match l with
  | c :: l' =>
      match radixDigit radix c with
      | Some d => takeDigits radix (radix * acc + d) (n + 1) l'
      | None => (acc, n, l)
      end
  | [] => (acc, n, [])
  end.

Definition chars (s : string) : list ascii := list_ascii_of_string s.

Fixpoint sameChars (l1 l2 : list ascii) : bool :=
  match l1, l2 with
  | [], [] => true
  | c :: l1', d :: l2' => isChar c d && sameChars l1' l2'
  | _, _ => false
  end.

(** [String.prototype.includes] with position 0. *)
Definition includes (hay needle : string) : bool :=
  match index 0 needle hay with
  | Some _ => true
  | None => false
  end.
End Text.

(** ** StringToNumber *)

Module StringNumericLiteral.
Import Text.
Local Open Scope Z_scope.

(** ExponentPart, or nothing, up to the end of the input. *)
Definition exponentPart (l : list ascii) : option Z :=
  match l with
  | [] => Some 0
  | c :: l' =>
      if isChar c "e" || isChar c "E" then
        let '(neg, l'') :=
          match l' with
          | s :: r => if isChar s "-" then (true, r)
                      else if isChar s "+" then (false, r)
                      else (false, l')
          | [] => (false, l')
          end in
        match takeDigits 10 0 0 l'' with
        | (e, n, []) => if 0 <? n then Some (if neg then - e else e) else None
        | _ => None
        end
      else None
  end.

(** StrUnsignedDecimalLiteral. *)
Definition unsignedDecimal (neg : bool) (l : list ascii) : number :=
  if sameChars l (chars "Infinity") then Num.Infinity neg
  else
    let '(ip, n1, r1) := takeDigits 10 0 0 l in
    let '(m, n2, r2) :=
      match r1 with
      | c :: r => if isChar c "." then takeDigits 10 ip 0 r else (ip, 0, r1)
      | [] => (ip, 0, r1)
      end in
    if 0 <? n1 + n2 then
      match exponentPart r2 with
      | Some e => Num.of_decimal neg m (e - n2)
      | None => Num.NaN
      end
    else Num.NaN.

(** NonDecimalIntegerLiteral: the digits after the [0x], [0o] or [0b]
    prefix. *)
Definition nonDecimal (radix : Z) (l : list ascii) : number :=
  match takeDigits radix 0 0 l with
  | (m, n, []) => if 0 <? n then Num.of_decimal false m 0 else Num.NaN
  | _ => Num.NaN
  end.

Definition radixOfPrefix (c : ascii) : option Z :=
  if isChar c "x" || isChar c "X" then Some 16
  else if isChar c "o" || isChar c "O" then Some 8
  else if isChar c "b" || isChar c "B" then Some 2
  else None.

Definition strNumericLiteral (l : list ascii) : number :=
  match l with
  | [] => Num.zero false
  | c :: l' =>
      if isChar c "-" then unsignedDecimal true l'
      else if isChar c "+" then unsignedDecimal false l'
      else
        match l' with
        | p :: l'' =>
            match (if isChar c "0" then radixOfPrefix p else None) with
            | Some radix => nonDecimal radix l''
            | None => unsignedDecimal false l
            end
        | [] => unsignedDecimal false l
        end
  end.

Definition StringToNumber (s : string) : number :=
  strNumericLiteral (trim (chars s)).
End StringNumericLiteral.
Export StringNumericLiteral(StringToNumber).

(** ** Abstract operations on values *)

(** ToBoolean: what [!x] and [if (x)] test. *)
Definition ToBoolean (v : JSValue) : bool :=
  match v with
  | JSUndefined | JSNull => false
  | JSBoolean b => b
  | JSNumber n =>
      match n with
      | S754_zero _ | S754_nan => false
      | _ => true
      end
  | JSString s =>
      match s with
      | EmptyString => false
      | String _ _ => true
      end
  | JSArray _ _ | JSObject _ _ => true
  end.

(** [Array.isArray]. *)
Definition Array_isArray (v : JSValue) : bool :=
  match v with
  | JSArray _ _ => true
  | _ => false
  end.

(** IsStrictlyEqual, the [===] operator. *)
Definition IsStrictlyEqual (x y : JSValue) : bool :=
  match x, y with
  | JSUndefined, JSUndefined => true
  | JSNull, JSNull => true
  | JSBoolean a, JSBoolean b => Bool.eqb a b
  | JSNumber a, JSNumber b => Num.equal a b
  | JSString a, JSString b => String.eqb a b
  | JSArray a _, JSArray b _ => Pos.eqb a b
  | JSObject a _, JSObject b _ => Pos.eqb a b
  | _, _ => false
  end.

(** SameValueZero, the comparison used by [Array.prototype.includes]. *)
Definition SameValueZero (x y : JSValue) : bool :=
  match x, y with
  | JSNumber a, JSNumber b => Num.sameValueZero a b
  | _, _ => IsStrictlyEqual x y
  end.

(** [Array.prototype.includes(searchElement)] on the elements of an
    array. *)
Definition Array_includes (elems : list JSValue) (searchElement : JSValue)
  : bool :=
  existsb (fun elementK => SameValueZero elementK searchElement) elems.

(** Whether a plain object has an own property of that name. *)
Fixpoint HasOwnProperty (props : list (string * JSValue)) (key : string)
  : bool :=
  match props with
  | [] => false
  | (k, _) :: props' => String.eqb k key || HasOwnProperty props' key
  end.

(** What OrdinaryToPrimitive raises when neither [toString] nor
    [valueOf] gives a primitive. *)
Definition conversionError : JSError :=
  TypeError "Cannot convert object to primitive value".

Section Conversions.
Context {engine : Engine}.

(** ToString. An array is joined with commas, [undefined] and [null]
    elements giving the empty string, the other elements being converted
    in turn. A plain object goes through OrdinaryToPrimitive: its
    [valueOf] gives the object back, and its [toString] is the inherited
    [Object.prototype.toString] unless an own property of that name
    hides it. Such a property holds data, which cannot be called, and the
    conversion then raises a [TypeError]. *)
Fixpoint ToString (v : JSValue) : Outcome string :=
  match v with
  | JSUndefined => Ok "undefined"
  | JSNull => Ok "null"
  | JSBoolean b => Ok (if b then "true" else "false")
  | JSNumber n => Ok (NumberToString n)
  | JSString s => Ok s
  | JSArray _ elems =>
      (fix join (l : list JSValue) : Outcome string :=
         match l with
         | [] => Ok ""
         | x :: l' =>
             sx <- (match x with
                    | JSUndefined | JSNull => Ok ""
                    | _ => ToString x
                    end) ;;
             match l' with
             | [] => Ok sx
             | _ :: _ => rest <- join l' ;; Ok (sx ++ "," ++ rest)%string
             end
         end) elems
  | JSObject _ props =>
      if HasOwnProperty props "toString" then Throw conversionError
      else Ok "[object Object]"
  end.

(** ToPrimitive: arrays and plain objects convert through [toString]
    whatever the hint, their [valueOf] returning the object itself. *)
Definition ToPrimitive (v : JSValue) : Outcome JSValue :=
  match v with
  | JSArray _ _ | JSObject _ _ => s <- ToString v ;; Ok (JSString s)
  | _ => Ok v
  end.

(** ToNumber, which is what the [Number] function applies. *)
Definition ToNumber (v : JSValue) : Outcome number :=
  p <- ToPrimitive v ;;
  Ok match p with
     | JSUndefined => Num.NaN
     | JSNull => Num.zero false
     | JSBoolean b => if b then Num.of_Z 1 else Num.zero false
     | JSNumber n => n
     | JSString s => StringToNumber s
     | _ => Num.NaN
     end.

Definition Number := ToNumber.
End Conversions.

(** ** Dates *)

Module DateTime.
Import Text.
Local Open Scope Z_scope.

Definition msPerDay := 86400000.

(** A time value: milliseconds since the epoch, [None] for NaN. *)
Definition timeValue := option Z.

Definition DaysInYear (y : Z) : Z :=
  if negb (y mod 4 =? 0) then 365
  else if negb (y mod 100 =? 0) then 366
  else if negb (y mod 400 =? 0) then 365
  else 366.

Definition DayFromYear (y : Z) : Z :=
  365 * (y - 1970) + (y - 1969) / 4 - (y - 1901) / 100 + (y - 1601) / 400.

Definition DaysInMonth (y m : Z) : Z :=
  if m =? 2 then (if DaysInYear y =? 366 then 29 else 28)
  else if (m =? 4) || (m =? 6) || (m =? 9) || (m =? 11) then 30
  else 31.

(** Days of the year before the first day of month [m] (1 to 12). *)
Fixpoint daysBefore (y : Z) (m : nat) : Z :=
  match m with
  | O => 0
  | S m' =>
      match m' with
      | O => 0
      | S _ => daysBefore y m' + DaysInMonth y (Z.of_nat m')
      end
  end.

(** The time value of midnight UTC starting the given calendar day,
    when there is such a day. *)
Definition utcMidnight (y m d : Z) : timeValue :=
  if (1 <=? m) && (m <=? 12) && (1 <=? d) && (d <=? DaysInMonth y m)
  then Some ((DayFromYear y + daysBefore y (Z.to_nat m) + (d - 1)) * msPerDay)
  else None.

Definition decimal (l : list ascii) : option Z :=
  match takeDigits 10 0 0 l with
  | (v, _, []) => Some v
  | _ => None
  end.

(** The date-only forms [YYYY], [YYYY-MM] and [YYYY-MM-DD] of the Date
    Time String Format, which denote midnight UTC. *)
Definition parseDateOnly (s : string) : timeValue :=
  match chars s with
  | [y1; y2; y3; y4] =>
      match decimal [y1; y2; y3; y4] with
      | Some y => utcMidnight y 1 1
      | None => None
      end
  | [y1; y2; y3; y4; h1; m1; m2] =>
      match decimal [y1; y2; y3; y4], decimal [m1; m2] with
      | Some y, Some m => if isChar h1 "-" then utcMidnight y m 1 else None
      | _, _ => None
      end
  | [y1; y2; y3; y4; h1; m1; m2; h2; d1; d2] =>
      match decimal [y1; y2; y3; y4], decimal [m1; m2], decimal [d1; d2] with
      | Some y, Some m, Some d =>
          if isChar h1 "-" && isChar h2 "-" then utcMidnight y m d else None
      | _, _, _ => None
      end
  | _ => None
  end.

(** TimeClip of a number. *)
Definition TimeClip (n : number) : timeValue :=
  match Num.truncate n with
  | Some t => if Z.abs t <=? 8640000000000000 then Some t else None
  | None => None
  end.

Section WithEngine.
Context {engine : Engine}.

(** [Date.parse] applied to a string. *)
Definition parse (s : string) : timeValue :=
  match parseDateOnly s with
  | Some t => Some t
  | None => DateParseFallback s
  end.

(** [Date.parse(v)]: the argument is converted with ToString. *)
Definition Date_parse (v : JSValue) : Outcome timeValue :=
  s <- ToString v ;; Ok (parse s).

(** The time value of [new Date(v)]: the argument is converted with
    ToPrimitive; a string is parsed, anything else is taken as a number
    of milliseconds. *)
Definition new_Date (v : JSValue) : Outcome timeValue :=
  p <- ToPrimitive v ;;
  match p with
  | JSString s => Ok (parse s)
  | _ => n <- ToNumber p ;; Ok (TimeClip n)
  end.
End WithEngine.

(** The relational operators on two Date objects compare their time
    values as numbers: false as soon as one is NaN. *)
Definition compareWith (rel : Z -> Z -> bool) (a b : timeValue) : bool :=
  match a, b with
  | Some x, Some y => rel x y
  | _, _ => false
  end.
Definition gt := compareWith Z.gtb.
Definition ge := compareWith Z.geb.
Definition lt := compareWith Z.ltb.
Definition le := compareWith Z.leb.

(** The global [isNaN] applied to a time value. *)
Definition isNaN (t : timeValue) : bool :=
  match t with
  | Some _ => false
  | None => true
  end.
End DateTime.

(** ** Objects as records, and the array iteration methods *)

(** The own properties of a plain object, such as a
    [Record<string, unknown>]. *)
Definition JSRecord := list (string * JSValue).

(** Property read [o.key]: [undefined] when the property is missing. *)
Fixpoint Get (o : JSRecord) (key : string) : JSValue :=
  match o with
  | [] => JSUndefined
  | (k, v) :: o' => if String.eqb k key then v else Get o' key
  end.

Section Iteration.
Context {A : Type}.

(** [Array.prototype.every]: the result, and the elements the callback
    was called on, in order. *)
Fixpoint every_run (callback : A -> Outcome bool) (l : list A)
  : Outcome bool * list A :=
  match l with
  | [] => (Ok true, [])
  | x :: l' =>
      match callback x with
      | Ok true => let '(r, seen) := every_run callback l' in (r, x :: seen)
      | Ok false => (Ok false, [x])
      | Throw e => (Throw e, [x])
      end
  end.

(** [Array.prototype.some], likewise. *)
Fixpoint some_run (callback : A -> Outcome bool) (l : list A)
  : Outcome bool * list A :=
  match l with
  | [] => (Ok false, [])
  | x :: l' =>
      match callback x with
      | Ok true => (Ok true, [x])
      | Ok false => let '(r, seen) := some_run callback l' in (r, x :: seen)
      | Throw e => (Throw e, [x])
      end
  end.

(** [Array.prototype.forEach], likewise; what the callback returns is
    dropped. *)
Fixpoint forEach_run {B} (callback : A -> Outcome B) (l : list A)
  : Outcome unit * list A :=
  match l with
  | [] => (Ok tt, [])
  | x :: l' =>
      match callback x with
      | Ok _ => let '(r, seen) := forEach_run callback l' in (r, x :: seen)
      | Throw e => (Throw e, [x])
      end
  end.

Definition Array_every callback l := fst (every_run callback l).
Definition Array_some callback l := fst (some_run callback l).
Definition Array_forEach {B} (callback : A -> Outcome B) l :=
  fst (forEach_run callback l).
End Iteration.

(** ** The rule engine *)

(** Modelled from the spec: the [RuleOperator] enumeration of
    [@medusajs/utils], which the engine imports. The source shows its
    members [IN] and [NIN], the eight keys of the dispatch table and the
    type [Lowercase<keyof typeof RuleOperator>] of a rule's operator; the
    spec gives the set as in, nin, eq, ne, gt, gte, lt, lte. *)
Inductive RuleOperator := IN | NIN | EQ | NE | GT | GTE | LT | LTE.

Definition RuleOperator_value (op : RuleOperator) : string :=
  match op with
  | IN => "in"
  | NIN => "nin"
  | EQ => "eq"
  | NE => "ne"
  | GT => "gt"
  | GTE => "gte"
  | LT => "lt"
  | LTE => "lte"
  end.

Definition RuleOperator_members : list RuleOperator :=
  [IN; NIN; EQ; NE; GT; GTE; LT; LTE].

(** [export type Rule]. The operator is one of the eight names by its
    type. The value is any value: the declared type is
    [string | string[] | null], and a validated descriptor may also
    carry an array of anything. *)
Record Rule := {
  attribute : string;
  operator : RuleOperator;
  value : JSValue
}.

(** [Object.values(RuleOperator)]. *)
Definition availableOperators : list JSValue :=
  map (fun op => JSString (RuleOperator_value op)) RuleOperator_members.

Section RuleEngine.
Context {engine : Engine}.

(** [pickValueFromObject] of [@medusajs/utils]: the value found in the
    context at an attribute path, [undefined] when there is none. Its
    code is not part of the engine's file: it is any function, which
    returns a value or raises. *)
Variable pickValueFromObject : string -> JSRecord -> Outcome JSValue.

Definition isDate (str : JSValue) : Outcome bool :=
  t <- DateTime.Date_parse str ;; Ok (negb (DateTime.isNaN t)).

(** The method call [ruleValue.includes(contextValue)]: arrays and
    strings have such a method, nothing else in the value universe
    does. [String.prototype.includes] converts its argument with
    ToString; [Array.prototype.includes] converts nothing. *)
Definition includes (ruleValue contextValue : JSValue) : Outcome bool :=
  match ruleValue with
  | JSArray _ elems => Ok (Array_includes elems contextValue)
  | JSString s =>
      searchString <- ToString contextValue ;;
      Ok (Text.includes s searchString)
  | JSUndefined | JSNull =>
      Throw (TypeError "Cannot read properties of null or undefined")
  | _ => Throw (TypeError "ruleValue.includes is not a function")
  end.

Definition operatorsPredicate (op : RuleOperator)
  (contextValue ruleValue : JSValue) : Outcome bool :=
  match op with
  | IN => includes ruleValue contextValue
  | NIN => b <- includes ruleValue contextValue ;; Ok (negb b)
  | EQ => Ok (IsStrictlyEqual contextValue ruleValue)
  | NE => Ok (negb (IsStrictlyEqual contextValue ruleValue))
  | GT =>
      bothDates <- isDate contextValue &&& isDate ruleValue ;;
      if bothDates
      then t <- DateTime.new_Date contextValue ;;
           u <- DateTime.new_Date ruleValue ;;
           Ok (DateTime.gt t u)
      else m <- Number contextValue ;;
           n <- Number ruleValue ;;
           Ok (Num.gt m n)
  | GTE =>
      bothDates <- isDate contextValue &&& isDate ruleValue ;;
      if bothDates
      then t <- DateTime.new_Date contextValue ;;
           u <- DateTime.new_Date ruleValue ;;
           Ok (DateTime.ge t u)
      else m <- Number contextValue ;;
           n <- Number ruleValue ;;
           Ok (Num.ge m n)
  | LT =>
      bothDates <- isDate contextValue &&& isDate ruleValue ;;
      if bothDates
      then t <- DateTime.new_Date contextValue ;;
           u <- DateTime.new_Date ruleValue ;;
           Ok (DateTime.lt t u)
      else m <- Number contextValue ;;
           n <- Number ruleValue ;;
           Ok (Num.lt m n)
  | LTE =>
      bothDates <- isDate contextValue &&& isDate ruleValue ;;
      if bothDates
      then t <- DateTime.new_Date contextValue ;;
           u <- DateTime.new_Date ruleValue ;;
           Ok (DateTime.le t u)
      else m <- Number contextValue ;;
           n <- Number ruleValue ;;
           Ok (Num.le m n)
  end.

Record Options := { someAreValid : bool }.

Definition defaultOptions : Options := {| someAreValid := false |}.

(** The callback of [isContextValid]. *)
Definition predicate (context : JSRecord) (rule : Rule) : Outcome bool :=
  let '(Build_Rule attribute operator value) := rule in
  contextValue <- pickValueFromObject attribute context ;;
  operatorsPredicate operator contextValue value.

(** [isContextValid], with the rules the callback was called on next to
    the result. The options argument may be left out: its default then
    applies. *)
Definition isContextValid_run (context : JSRecord) (rules : list Rule)
  (options : option Options) : Outcome bool * list Rule :=
  let '(Build_Options someAreValid) :=
    match options with
    | Some o => o
    | None => defaultOptions
    end in
  let loopComparator := if someAreValid then some_run else every_run in
  loopComparator (predicate context) rules.

Definition isContextValid (context : JSRecord) (rules : list Rule)
  (options : option Options) : Outcome bool :=
  fst (isContextValid_run context rules options).
End RuleEngine.

(** Modelled from the spec: [isString] of [@medusajs/utils], which tells
    whether a value is a string. *)
Definition isString (val : JSValue) : bool :=
  match val with
  | JSString _ => true
  | _ => false
  end.

(** The text a string contributes to a template literal or to [join]. *)
Definition stringOf (val : JSValue) : string :=
  match val with
  | JSString s => s
  | _ => ""
  end.

Definition invalidData (message : string) : JSError :=
  MedusaError INVALID_DATA message.

Definition unsupportedOperator (op : JSValue) : string :=
  ("Rule operator " ++ stringOf op ++ " is not supported. Must be one of "
   ++ String.concat ", " (map stringOf availableOperators))%string.

Definition validateRule (rule : JSRecord) : Outcome bool :=
  if negb (ToBoolean (Get rule "attribute"))
     || negb (ToBoolean (Get rule "operator"))
     || negb (ToBoolean (Get rule "value"))
  then Throw (invalidData
    "Rule must have an attribute, an operator and contextValue value")
  else if negb (isString (Get rule "attribute"))
  then Throw (invalidData "Rule attribute must be contextValue string")
  else if negb (isString (Get rule "operator"))
  then Throw (invalidData "Rule operator must be contextValue string")
  else if negb (Array_includes availableOperators (Get rule "operator"))
  then Throw (invalidData (unsupportedOperator (Get rule "operator")))
  else if IsStrictlyEqual (Get rule "operator") (JSString (RuleOperator_value IN))
          || IsStrictlyEqual (Get rule "operator") (JSString (RuleOperator_value NIN))
  then
    if negb (Array_isArray (Get rule "value"))
    then Throw (invalidData "Rule value must be an array for in/nin operators")
    else Ok true
  else
    if negb (isString (Get rule "value"))
    then Throw (invalidData
      ("Rule value must be a string for the selected operator "
       ++ stringOf (Get rule "operator"))%string)
    else Ok true.

(** [validateRules], with the descriptors [validateRule] was called on
    next to the result. *)
Definition validateRules_run (rules : list JSRecord)
  : Outcome bool * list JSRecord :=
  let '(r, seen) := forEach_run validateRule rules in
  (_ <- r ;; Ok true, seen).

Definition validateRules (rules : list JSRecord) : Outcome bool :=
  fst (validateRules_run rules).

(** The entry of the dispatch table a string names, if any. *)
Definition RuleOperator_of_string (s : string) : option RuleOperator :=
  find (fun op => String.eqb (RuleOperator_value op) s) RuleOperator_members.

(** A descriptor seen at the type [Rule]: the same three properties,
    when the attribute is a string and the operator one of the names of
    the type. *)
Definition asRule (rule : JSRecord) : option Rule :=
  match Get rule "attribute", Get rule "operator" with
  | JSString a, JSString o =>
      match RuleOperator_of_string o with
      | Some op => Some {| attribute := a; operator := op; value := Get rule "value" |}
      | None => None
      end
  | _, _ => None
  end.

Fixpoint asRules (rules : list JSRecord) : option (list Rule) :=
  match rules with
  | [] => Some []
  | r :: rules' =>
      match asRule r, asRules rules' with
      | Some r', Some l => Some (r' :: l)
      | _, _ => None
      end
  end.

(** ** Number::toString and a reference engine *)

Module NumberText.
Import Text.
Local Open Scope string_scope.
Local Open Scope Z_scope.

(** The decimal digits of a natural number. *)
Definition digits (z : Z) : string :=
  NilZero.string_of_uint (N.to_uint (Z.to_N z)).

Fixpoint zeros (n : nat) : string :=
  match n with
  | O => ""
  | S n' => String "0" (zeros n')
  end.

(** [floor (num / den * 10^(-p))] for positive [num] and [den]. *)
Definition scaled (num den p : Z) : Z :=
  if 0 <=? p then num / (den * 10 ^ p) else (num * 10 ^ (- p)) / den.

(** The least [j >= 0] with [num * 10^j >= den], searched up to the
    given bound. *)
Fixpoint leadingZeros (fuel : nat) (num den j : Z) : Z :=
  match fuel with
  | O => j
  | S fuel' =>
      if den <=? num then j else leadingZeros fuel' (num * 10) den (j + 1)
  end.

(** The [n] with [10^(n-1) <= num/den < 10^n]. *)
Definition magnitude (num den : Z) : Z :=
  if den <=? num then Z.of_nat (String.length (digits (num / den)))
  else 1 - leadingZeros 400 num den 0.

(** The shortest digit string that reads back as [x], searched from
    [k] digits up to 17, as an integer [s] and a power [p] of ten: the
    decimal [s * 10^p] rounds to [x]. *)
Fixpoint shortest (fuel : nat) (x : number) (num den n k : Z) : Z * Z :=
  let p := n - k in
  let lo := scaled num den p in
  let hi := lo + 1 in
  let back (s : Z) :=
    match x, Num.of_decimal false s p with
    | S754_finite _ m e, S754_finite _ m' e' => Pos.eqb m m' && (e =? e')
    | _, _ => false
    end in
  (* twice the distance from [x] to [lo] against the gap between the
     two candidates, both scaled by [den * 10^(-p)] *)
  let nearerLo :=
    let twice := if 0 <=? p then 2 * (num - lo * den * 10 ^ p)
                 else 2 * (num * 10 ^ (- p) - lo * den) in
    let gap := if 0 <=? p then den * 10 ^ p else den in
    match twice ?= gap with
    | Lt => true
    | Eq => Z.even lo
    | Gt => false
    end in
  match fuel with
  | O => (lo, p)
  | S fuel' =>
      match back lo, back hi with
      | true, true => (if nearerLo then lo else hi, p)
      | true, false => (lo, p)
      | false, true => (hi, p)
      | false, false => shortest fuel' x num den n (k + 1)
      end
  end.

Fixpoint stripZeros (l : list ascii) : list ascii :=
  match l with
  | c :: l' => if isChar c "0" then stripZeros l' else l
  | [] => []
  end.

Definition layout (ds : string) (n : Z) : string :=
  let k := Z.of_nat (String.length ds) in
  if (k <=? n) && (n <=? 21) then ds ++ zeros (Z.to_nat (n - k))
  else if (0 <? n) && (n <=? 21)
  then substring 0 (Z.to_nat n) ds ++ "."
       ++ substring (Z.to_nat n) (Z.to_nat (k - n)) ds
  else if (-6 <? n) && (n <=? 0) then "0." ++ zeros (Z.to_nat (- n)) ++ ds
  else
    let e := n - 1 in
    let exponent := (if e <? 0 then "-" else "+") ++ digits (Z.abs e) in
    if k =? 1 then ds ++ "e" ++ exponent
    else substring 0 1 ds ++ "." ++ substring 1 (Z.to_nat (k - 1)) ds
         ++ "e" ++ exponent.

(** Number::toString(x, 10). *)
Definition toString (x : number) : string :=
  match x with
  | S754_nan => "NaN"
  | S754_zero _ => "0"
  | S754_infinity s => if s then "-Infinity" else "Infinity"
  | S754_finite s m e =>
      let num := if 0 <=? e then Z.shiftl (Zpos m) e else Zpos m in
      let den := if 0 <=? e then 1 else Z.shiftl 1 (- e) in
      let '(s10, p) := shortest 17 x num den (magnitude num den) 1 in
      let all := digits s10 in
      let ds := string_of_list_ascii (rev (stripZeros (rev (chars all)))) in
      (if s then "-" else "")
      ++ layout ds (p + Z.of_nat (String.length all))
  end.
End NumberText.

(** An engine whose [Date.parse] knows the date-only forms and nothing
    else. *)
Definition strictEngine : Engine := {|
  NumberToString := NumberText.toString;
  DateParseFallback := fun _ => None
|}.

(** An engine whose fallback also reads a bare month number, 1 to 12, as
    the first day of that month of 2001, the way V8's legacy parser does
    (in UTC here). *)
Definition lenientEngine : Engine := {|
  NumberToString := NumberText.toString;
  DateParseFallback := fun s =>
    match Text.chars s with
    | [] => None
    | c :: l =>
        if (List.length l <=? 1)%nat then
          match DateTime.decimal (c :: l) with
          | Some m => DateTime.utcMidnight 2001 m 1
          | None => None
          end
        else None
    end
|}.

(** Modelled from the spec: [pickValueFromObject] is not part of the
    engine's file. The spec has the attribute name a dot-addressable
    path that is looked up in the context, with [undefined] when the
    path does not exist. *)
Fixpoint splitOnDot (s : string) : list string :=
  match s with
  | EmptyString => [EmptyString]
  | String c s' =>
      if Text.isChar c "."
      then EmptyString :: splitOnDot s'
      else match splitOnDot s' with
           | seg :: segs => String c seg :: segs
           | [] => [String c EmptyString]
           end
  end.

Fixpoint pickSegments (segments : list string) (object : JSRecord) : JSValue :=
  match segments with
  | [] => JSUndefined
  | segment :: rest =>
      match rest with
      | [] => Get object segment
      | _ :: _ =>
          match Get object segment with
          | JSObject _ props => pickSegments rest props
          | _ => JSUndefined
          end
      end
  end.

(** As the spec words it, this lookup returns for every path and
    context. *)
Definition pickByPath (path : string) (object : JSRecord)
  : Outcome JSValue :=
  Ok (pickSegments (splitOnDot path) object).

(** ** The comparison operators, as specified *)

Definition isOrdering (op : RuleOperator) : bool :=
  match op with
  | GT | GTE | LT | LTE => true
  | _ => false
  end.

(** Whether the outcome of comparing a left operand with a right one
    satisfies an ordering operator. *)
Definition holds (op : RuleOperator) (c : comparison) : bool :=
  match op, c with
  | GT, Gt => true
  | GTE, (Gt | Eq) => true
  | LT, Lt => true
  | LTE, (Lt | Eq) => true
  | _, _ => false
  end.

(** The values that convert to a primitive: every value but a plain
    object with an own [toString] property and an array that holds a
    value that does not convert. *)
Fixpoint convertible (v : JSValue) : bool :=
  match v with
  | JSArray _ elems =>
      (fix all (l : list JSValue) : bool :=
         match l with
         | [] => true
         | x :: l' => convertible x && all l'
         end) elems
  | JSObject _ props => negb (HasOwnProperty props "toString")
  | _ => true
  end.

Section DualMode.
Context {engine : Engine}.



End DualMode.

(** ** A structurally invalid descriptor, as specified *)

Definition isOneOf (names : list string) (v : JSValue) : bool :=
  match v with
  | JSString s => existsb (String.eqb s) names
  | _ => false
  end.

Definition structurallyInvalid (rule : JSRecord) : bool :=
  let attribute := Get rule "attribute" in
  let operator := Get rule "operator" in
  let value := Get rule "value" in
  (* attribute, operator or value missing or falsy *)
  negb (ToBoolean attribute) || negb (ToBoolean operator)
  || negb (ToBoolean value)
  (* attribute or operator not a string *)
  || negb (isString attribute) || negb (isString operator)
  (* operator not one of the eight *)
  || negb (isOneOf ["in"; "nin"; "eq"; "ne"; "gt"; "gte"; "lt"; "lte"] operator)
  (* in or nin with a value that is not a sequence *)
  || (isOneOf ["in"; "nin"] operator && negb (Array_isArray value))
  (* any other operator with a value that is not a single string *)
  || (isOneOf ["eq"; "ne"; "gt"; "gte"; "lt"; "lte"] operator
      && negb (isString value)).

(** ** Letter case *)

(** [String.prototype.toLowerCase] on code units below 256. *)
Definition lowerChar (c : ascii) : ascii :=
  let n := Text.code c in
  if ((65 <=? n) && (n <=? 90)
      || (192 <=? n) && (n <=? 222) && negb (n =? 215))%Z
  then ascii_of_N (Z.to_N (n + 32))
  else c.

Fixpoint toLowerCase (s : string) : string :=
  match s with
  | EmptyString => EmptyString
  | String c s' => String (lowerChar c) (toLowerCase s')
  end.

(** A descriptor with its operator replaced. *)
Definition withOperator (op : JSValue) (rule : JSRecord) : JSRecord :=
  ("operator", op) :: rule.

(** ** Descriptors and contexts used in the examples *)

Definition descriptor (attribute operator value : JSValue) : JSRecord :=
  [("attribute", attribute); ("operator", operator); ("value", value)].

Definition sampleContext : JSRecord :=
  [("a", JSString "x");
   ("customer", JSObject 1%positive [("group", JSString "vip")])].

(** A context as JSON gives it, [{"a": {"toString": "x"}, "b": "y"}]:
    the value at [a] is a plain object with an own property named
    [toString]. *)
Definition shadowingContext : JSRecord :=
  [("a", JSObject 3%positive [("toString", JSString "x")]);
   ("b", JSString "y")].

(** ** Aggregation, as specified *)

(** The shape of value an operator works on: a sequence for in and nin,
    a single non-empty string for the others. *)
Definition wellShaped (op : RuleOperator) (v : JSValue) : bool :=
  match op with
  | IN | NIN => Array_isArray v
  | _ => isString v && ToBoolean v
  end.

(** A rule whose value has the shape its operator works on, as the
    rules of a validated list have. *)
Definition evaluable (r : Rule) : bool := wellShaped (operator r) (value r).

Section Stated.
Context {engine : Engine}.
Variable pickValueFromObject : string -> JSRecord -> Outcome JSValue.

(** A rule matches a context when its predicate returns true. *)
Definition matches (context : JSRecord) (rule : Rule) : Prop :=
  predicate pickValueFromObject context rule = Ok true.

Definition withSomeAreValid (someAreValid : bool) : option Options :=
  Some {| someAreValid := someAreValid |}.

(** Conjunction by default, disjunction with [someAreValid], on every
    rule list. *)
Definition aggregationAsStated (context : JSRecord) (rules : list Rule)
  : Prop :=
  (isContextValid pickValueFromObject context rules None = Ok true
   <-> forall r, In r rules -> matches context r)
  /\ (isContextValid pickValueFromObject context rules (withSomeAreValid false)
      = Ok true
      <-> forall r, In r rules -> matches context r)
  /\ (isContextValid pickValueFromObject context rules (withSomeAreValid true)
      = Ok true
      <-> exists r, In r rules /\ matches context r).

(** The empty rule list evaluates to true. *)
Definition emptyAsStated (context : JSRecord) (options : option Options)
  : Prop :=
  isContextValid pickValueFromObject context [] options = Ok true.

(** A list that [validateRules] accepts evaluates to a boolean, on
    every context and with every option. *)
Definition validatedAsStated (descriptors : list JSRecord)
  (context : JSRecord) : Prop :=
  validateRules descriptors = Ok true ->
  forall rules options,
    asRules descriptors = Some rules ->
    exists b, isContextValid pickValueFromObject context rules options = Ok b.
End Stated.

(** Two descriptors that [validateRules] accepts, and the rules they
    are: a comparison of [a] with "5", then an equality that
    [shadowingContext] meets. *)
Definition comparisonThenMatch : list JSRecord :=
  [ descriptor (JSString "a") (JSString "gt") (JSString "5");
    descriptor (JSString "b") (JSString "eq") (JSString "y") ].

Definition comparisonThenMatchRules : list Rule :=
  [ {| attribute := "a"; operator := GT; value := JSString "5" |};
    {| attribute := "b"; operator := EQ; value := JSString "y" |} ].

(** Acceptance of an operator in any letter case: a descriptor is
    accepted whenever it would be with its operator in lower case. *)
Definition caseInsensitiveAsStated (rule : JSRecord) : Prop :=
  forall op,
    Get rule "operator" = JSString op ->
    validateRule (withOperator (JSString (toLowerCase op)) rule) = Ok true ->
    validateRule rule = Ok true.

(** ** Notions used in the further properties *)

(** The result a callback gives, [false] standing for an exception. *)
Definition passes {A} (callback : A -> Outcome bool) (x : A) : bool :=
  match callback x with
  | Ok b => b
  | Throw _ => false
  end.

(** A rule on which [operatorsPredicate] raises, given the value its
    attribute resolves to: a membership operator with a value that is
    neither an array nor a string, or with a string and a context value
    that does not convert; an ordering operator with a context value or
    a rule value that does not convert. *)
Definition raises (r : Rule) (contextValue : JSValue) : bool :=
  match operator r with
  | IN | NIN =>
      match value r with
      | JSArray _ _ => false
      | JSString _ => negb (convertible contextValue)
      | _ => true
      end
  | EQ | NE => false
  | GT | GTE | LT | LTE =>
      negb (convertible contextValue) || negb (convertible (value r))
  end.

(** The operator that accepts exactly what a membership or equality
    operator rejects; the ordering operators have none. *)
Definition complement (op : RuleOperator) : RuleOperator :=
  match op with
  | IN => NIN
  | NIN => IN
  | EQ => NE
  | NE => EQ
  | GT => GT
  | GTE => GTE
  | LT => LT
  | LTE => LTE
  end.

Definition complementRule (r : Rule) : Rule :=
  {| attribute := attribute r;
     operator := complement (operator r);
     value := value r |}.

(** The operator with its operands exchanged. *)
Definition mirror (op : RuleOperator) : RuleOperator :=
  match op with
  | GT => LT
  | GTE => LTE
  | LT => GT
  | LTE => GTE
  | IN => IN
  | NIN => NIN
  | EQ => EQ
  | NE => NE
  end.

Section Comparable.
Context {engine : Engine}.

(** Two values the dual-mode comparison can order: two dates on the
    date path, two numbers other than NaN on the numeric path. *)
Definition comparable (x y : JSValue) : Outcome bool :=
  dx <- isDate x ;;
  dy <- isDate y ;;
  if dx && dy
  then t <- DateTime.new_Date x ;;
       u <- DateTime.new_Date y ;;
       Ok (negb (DateTime.isNaN t) && negb (DateTime.isNaN u))
  else m <- Number x ;;
       n <- Number y ;;
       Ok (negb (Num.isNaN m) && negb (Num.isNaN n)).
End Comparable.

(** ** Calendar dates in the date-only form *)

Definition digitChar (d : Z) : ascii := ascii_of_N (Z.to_N (48 + d)).

(** The text [YYYY-MM-DD] of a calendar date. *)
Definition isoDate (y m d : Z) : string :=
  string_of_list_ascii
    [ digitChar (y / 1000); digitChar (y / 100 mod 10);
      digitChar (y / 10 mod 10); digitChar (y mod 10); "-"%char;
      digitChar (m / 10); digitChar (m mod 10); "-"%char;
      digitChar (d / 10); digitChar (d mod 10) ].

(** A day of the calendar, in the years that have four digits. *)
Definition validDate (y m d : Z) : bool :=
  ((0 <=? y) && (y <=? 9999) && (1 <=? m) && (m <=? 12)
   && (1 <=? d) && (d <=? DateTime.DaysInMonth y m))%Z.

(** The order of the calendar: by year, then month, then day. *)
Definition compareCalendar (y m d y' m' d' : Z) : comparison :=
  match (y ?= y')%Z with
  | Eq => match (m ?= m')%Z with
          | Eq => (d ?= d')%Z
          | c => c
          end
  | c => c
  end.

(** The four digits of a number below 10000: the text of a year, or of
    any quantity or amount of four digits. *)
Definition fourDigits (n : Z) : string :=
  string_of_list_ascii
    [ digitChar (n / 1000); digitChar (n / 100 mod 10);
      digitChar (n / 10 mod 10); digitChar (n mod 10) ].

(** The number of the day within its year, from 0. *)
Definition dayWithinYear (y m d : Z) : Z :=
  (DateTime.daysBefore y (Z.to_nat m) + (d - 1))%Z.

(** ** The order summary card: reservations, allocation and refunds *)

Module SummaryCard.

(** Addition of numbers: the [+] and [+=] of the totals. *)
Definition add (x y : number) : number := SFadd Num.prec Num.emax x y.

(** [sum] of lodash: 0 for an empty array, otherwise the first element
    with the following ones added to it from the left. *)
Definition sum (array : list number) : number :=
  match array with
  | [] => Num.zero false
  | x :: rest => fold_left add rest x
  end.

(** The fields of the entities that the card reads. An identifier that
    may be [null] or left out is an [option]. *)
Module ReservationItemDTO.
Record t := {
  id : string;
  line_item_id : option string;
  quantity : number
}.
End ReservationItemDTO.

Module LineItem.
Record t := {
  id : string;
  quantity : number
}.
End LineItem.

Record Swap := { difference_due : number }.

Record Refund := {
  amount : number;
  reason : string
}.

Record Order := {
  items : list LineItem.t;
  swaps : list Swap;
  refunds : option (list Refund)
}.

(** The own properties of an object used as a map, in the order they
    were created. *)
Definition ObjectOf (V : Type) := list (string * V).

Fixpoint own {V} (o : ObjectOf V) (key : string) : option V :=
  match o with
  | [] => None
  | (k, v) :: o' => if String.eqb k key then Some v else own o' key
  end.

(** The assignment [o[key] = v]. *)
Fixpoint assign {V} (o : ObjectOf V) (key : string) (v : V) : ObjectOf V :=
  match o with
  | [] => [(key, v)]
  | (k, w) :: o' =>
      if String.eqb k key then (k, v) :: o' else (k, w) :: assign o' key v
  end.

(** [Array.prototype.reduce] with an initial value. *)
Fixpoint reduce {A B} (callback : B -> A -> Outcome B) (array : list A)
  (initialValue : B) : Outcome B :=
  match array with
  | [] => Ok initialValue
  | x :: rest => acc <- callback initialValue x ;; reduce callback rest acc
  end.

Definition truthy (s : option string) : bool :=
  match s with
  | Some (String _ _) => true
  | _ => false
  end.

Section Card.
(** The names of the properties every plain object inherits from
    [Object.prototype] ([constructor], [toString], ...): reading one of
    them on an object that has no such property of its own gives the
    inherited function or object, which is truthy, is not iterable and
    has no [map] method. *)
Variable ObjectPrototype_has : string -> bool.

(** The callback of the reduction that builds [reservationItemsMap]. *)
Definition collect (acc : ObjectOf (list ReservationItemDTO.t))
  (item : ReservationItemDTO.t)
  : Outcome (ObjectOf (list ReservationItemDTO.t)) :=
  if negb (truthy (ReservationItemDTO.line_item_id item)) then Ok acc
  else
    let key := match ReservationItemDTO.line_item_id item with
               | Some k => k
               | None => ""
               end in
    match own acc key with
    | Some existing => Ok (assign acc key (existing ++ [item]))
    | None =>
        if ObjectPrototype_has key
        then Throw (TypeError "acc[item.line_item_id] is not iterable")
        else Ok (assign acc key [item])
    end.

Definition reservationItemsMap
  (reservations : option (list ReservationItemDTO.t))
  (inventoryEnabled isLoading : bool)
  : Outcome (ObjectOf (list ReservationItemDTO.t)) :=
  if match reservations with
     | Some (_ :: _) => false
     | _ => true
     end
     || negb inventoryEnabled || isLoading
  then Ok []
  else
    match reservations with
    | Some l => reduce collect l []
    | None => Ok []
    end.

Definition allItemsReserved
  (reservationItemsMap : ObjectOf (list ReservationItemDTO.t))
  (order : Order) : Outcome bool :=
  Array_every
    (fun item =>
       match own reservationItemsMap (LineItem.id item) with
       | Some reservations =>
           Ok (Num.equal (sum (map ReservationItemDTO.quantity reservations))
                         (LineItem.quantity item))
       | None =>
           if ObjectPrototype_has (LineItem.id item)
           then Throw (TypeError "reservations.map is not a function")
           else Ok false
       end)
    (items order).
End Card.

Record Movements := {
  hasMovements : bool;
  swapAmount : number;
  manualRefund : number;
  swapRefund : number;
  returnRefund : number
}.

(** The body of the loop over the refunds, on the three totals
    [(manualRefund, swapRefund, returnRefund)]. *)
Definition addRefund (totals : number * number * number) (ref : Refund)
  : number * number * number :=
  let '(manualRefund, swapRefund, returnRefund) := totals in
  let manualRefund :=
    if String.eqb (reason ref) "other" || String.eqb (reason ref) "discount"
    then add manualRefund (amount ref) else manualRefund in
  let returnRefund :=
    if String.eqb (reason ref) "return"
    then add returnRefund (amount ref) else returnRefund in
  let swapRefund :=
    if String.eqb (reason ref) "swap"
    then add swapRefund (amount ref) else swapRefund in
  (manualRefund, swapRefund, returnRefund).

Definition movements (order : Order) : Movements :=
  let zero := Num.zero false in
  let swapAmount := sum (map difference_due (swaps order)) in
  let '(manualRefund, swapRefund, returnRefund) :=
    match refunds order with
    | Some (ref :: rest) => fold_left addRefund (ref :: rest) (zero, zero, zero)
    | _ => (zero, zero, zero)
    end in
  {| hasMovements :=
       negb (Num.equal
               (add (add (add swapAmount manualRefund) swapRefund) returnRefund)
               zero);
     swapAmount := swapAmount;
     manualRefund := manualRefund;
     swapRefund := swapRefund;
     returnRefund := returnRefund |}.

(** The reservations made for a line item, in the order of the list. *)
Definition reservedFor (key : string) (r : ReservationItemDTO.t) : bool :=
  match ReservationItemDTO.line_item_id r with
  | Some k => String.eqb k key
  | None => false
  end.

Definition reservationsOf (reservations : list ReservationItemDTO.t)
  (key : string) : list ReservationItemDTO.t :=
  match key with
  | EmptyString => []
  | String _ _ => filter (reservedFor key) reservations
  end.

(** Whether all of a line item is reserved: there are reservations for
    it, and their quantities add up to its quantity. *)
Definition fullyReserved (reservations : list ReservationItemDTO.t)
  (item : LineItem.t) : bool :=
  match reservationsOf reservations (LineItem.id item) with
  | [] => false
  | g => Num.equal (sum (map ReservationItemDTO.quantity g))
           (LineItem.quantity item)
  end.

Definition hasReason (reasons : list string) (ref : Refund) : bool :=
  existsb (String.eqb (reason ref)) reasons.

(** A total of the amounts of the refunds with one of the given
    reasons, added from the left to 0. *)
Definition refunded (reasons : list string) (l : list Refund) : number :=
  fold_left add (map amount (filter (hasReason reasons) l)) (Num.zero false).

Definition refundsOf (order : Order) : list Refund :=
  match refunds order with
  | Some l => l
  | None => []
  end.

(** Data used in the examples: two reservations of 4 and 6 for a line
    item of 10, and one reservation without a line item. *)
Definition sampleInherited (key : string) : bool :=
  existsb (String.eqb key)
    ["constructor"; "toString"; "valueOf"; "hasOwnProperty"; "__proto__"].

Definition sampleReservations : list ReservationItemDTO.t :=
  [ {| ReservationItemDTO.id := "r1";
       ReservationItemDTO.line_item_id := Some "item_1";
       ReservationItemDTO.quantity := StringToNumber "4" |};
    {| ReservationItemDTO.id := "r2";
       ReservationItemDTO.line_item_id := None;
       ReservationItemDTO.quantity := StringToNumber "10" |};
    {| ReservationItemDTO.id := "r3";
       ReservationItemDTO.line_item_id := Some "item_1";
       ReservationItemDTO.quantity := StringToNumber "6" |} ].

Definition sampleOrder : Order :=
  {| items := [ {| LineItem.id := "item_1";
                   LineItem.quantity := StringToNumber "10" |} ];
     swaps := [];
     refunds := None |}.

End SummaryCard.

(** ** The tax lines of the system tax provider *)

Module SystemTaxService.

Module TaxServiceRate.
Record t := {
  rate : option number;
  name : string;
  code : option string
}.
End TaxServiceRate.

Module ShippingMethod.
Record t := { id : string }.
End ShippingMethod.

Module ItemTaxCalculationLine.
Record t := {
  item : SummaryCard.LineItem.t;
  rates : list TaxServiceRate.t
}.
End ItemTaxCalculationLine.

Module ShippingTaxCalculationLine.
Record t := {
  shipping_method : ShippingMethod.t;
  rates : list TaxServiceRate.t
}.
End ShippingTaxCalculationLine.

Module ProviderTaxLine.
Record t := {
  rate : number;
  name : string;
  code : option string;
  item_id : option string;
  shipping_method_id : option string
}.
End ProviderTaxLine.

(** [r.rate || 0]: a rate that is missing, zero or NaN gives 0. *)
Definition rateOrZero (r : TaxServiceRate.t) : number :=
  match TaxServiceRate.rate r with
  | Some n => if ToBoolean (JSNumber n) then n else Num.zero false
  | None => Num.zero false
  end.

Definition itemTaxLine (l : ItemTaxCalculationLine.t) (r : TaxServiceRate.t)
  : ProviderTaxLine.t :=
  {| ProviderTaxLine.rate := rateOrZero r;
     ProviderTaxLine.name := TaxServiceRate.name r;
     ProviderTaxLine.code := TaxServiceRate.code r;
     ProviderTaxLine.item_id :=
       Some (SummaryCard.LineItem.id (ItemTaxCalculationLine.item l));
     ProviderTaxLine.shipping_method_id := None |}.

Definition shippingTaxLine (l : ShippingTaxCalculationLine.t)
  (r : TaxServiceRate.t) : ProviderTaxLine.t :=
  {| ProviderTaxLine.rate := rateOrZero r;
     ProviderTaxLine.name := TaxServiceRate.name r;
     ProviderTaxLine.code := TaxServiceRate.code r;
     ProviderTaxLine.item_id := None;
     ProviderTaxLine.shipping_method_id :=
       Some (ShippingMethod.id
               (ShippingTaxCalculationLine.shipping_method l)) |}.

(** The value the promise of [getTaxLines] resolves to. *)
Definition getTaxLines {TaxCalculationContext : Type}
  (itemLines : list ItemTaxCalculationLine.t)
  (shippingLines : list ShippingTaxCalculationLine.t)
  (context : TaxCalculationContext) : list ProviderTaxLine.t :=
  let taxLines :=
    flat_map (fun l => map (itemTaxLine l) (ItemTaxCalculationLine.rates l))
      itemLines in
  let taxLines :=
    taxLines
    ++ flat_map
         (fun l => map (shippingTaxLine l) (ShippingTaxCalculationLine.rates l))
         shippingLines in
  taxLines.

(** The number of rates of a list of calculation lines. *)
Definition countRates {L} (rates : L -> list TaxServiceRate.t) (lines : list L)
  : nat :=
  fold_right (fun l n => (List.length (rates l) + n)%nat) O lines.

End SystemTaxService.

(** * Properties *)

(** ** The iteration methods *)

Section IterationFacts.
Context {A : Type}.
Variable callback : A -> Outcome bool.

Lemma every_run_true (l : list A) :
  fst (every_run callback l) = Ok true <->
  forall x, In x l -> callback x = Ok true.
Proof.
  induction l as [|x l IH]; simpl.
  - split; [intros _ y []|reflexivity].
  - destruct (callback x) as [[|]|e] eqn:Hx.
    + destruct (every_run callback l) as [r seen]; simpl in *.
      rewrite IH. split.
      * intros H y [<-|Hy]; auto.
      * intros H y Hy. apply H. now right.
    + simpl. split; [discriminate|].
      intros H. specialize (H x (or_introl eq_refl)). congruence.
    + simpl. split; [discriminate|].
      intros H. specialize (H x (or_introl eq_refl)). congruence.
Qed.

(** [every] stops at the first element that does not pass. *)
Lemma every_run_stops (l1 l2 : list A) (x : A) :
  (forall y, In y l1 -> callback y = Ok true) ->
  callback x <> Ok true ->
  every_run callback (l1 ++ x :: l2) =
    (match callback x with Ok _ => Ok false | Throw e => Throw e end,
     l1 ++ [x]).
Proof.
  intros H1 Hx. induction l1 as [|y l1 IH]; simpl.
  - destruct (callback x) as [[|]|e]; congruence.
  - rewrite (H1 y (or_introl eq_refl)), IH; [reflexivity|].
    intros z Hz. apply H1. now right.
Qed.

Lemma every_run_all (l : list A) :
  (forall y, In y l -> callback y = Ok true) ->
  every_run callback l = (Ok true, l).
Proof.
  induction l as [|y l IH]; simpl; intros H; [reflexivity|].
  rewrite (H y (or_introl eq_refl)), IH; [reflexivity|].
  intros z Hz. apply H. now right.
Qed.

(** [some] returns true exactly when an element passes and all the
    elements before it were rejected without an exception. *)
Lemma some_run_true (l : list A) :
  fst (some_run callback l) = Ok true <->
  exists l1 x l2, l = l1 ++ x :: l2 /\ callback x = Ok true
                  /\ forall y, In y l1 -> callback y = Ok false.
Proof.
  induction l as [|x l IH]; simpl.
  - split; [discriminate|]. intros (l1 & y & l2 & H & _).
    destruct l1; discriminate.
  - destruct (callback x) as [[|]|e] eqn:Hx; simpl.
    + split; [intros _|reflexivity].
      exists [], x, l. repeat split; auto. intros y [].
    + destruct (some_run callback l) as [r seen]; simpl in *.
      rewrite IH. split.
      * intros (l1 & y & l2 & -> & Hy & Hl1).
        exists (x :: l1), y, l2. repeat split; auto.
        intros z [<-|Hz]; auto.
      * intros (l1 & y & l2 & Heq & Hy & Hl1).
        destruct l1 as [|z l1]; simpl in Heq; inversion Heq; subst.
        -- congruence.
        -- exists l1, y, l2. repeat split; auto.
           intros w Hw. apply Hl1. now right.
    + split; [discriminate|].
      intros (l1 & y & l2 & Heq & Hy & Hl1).
      destruct l1 as [|z l1]; simpl in Heq; inversion Heq; subst.
      * congruence.
      * specialize (Hl1 z (or_introl eq_refl)). congruence.
Qed.

(** [some] stops at the first element that is not rejected. *)
Lemma some_run_stops (l1 l2 : list A) (x : A) :
  (forall y, In y l1 -> callback y = Ok false) ->
  callback x <> Ok false ->
  some_run callback (l1 ++ x :: l2) =
    (match callback x with Ok _ => Ok true | Throw e => Throw e end,
     l1 ++ [x]).
Proof.
  intros H1 Hx. induction l1 as [|y l1 IH]; simpl.
  - destruct (callback x) as [[|]|e]; congruence.
  - rewrite (H1 y (or_introl eq_refl)), IH; [reflexivity|].
    intros z Hz. apply H1. now right.
Qed.

Lemma some_run_none (l : list A) :
  (forall y, In y l -> callback y = Ok false) ->
  some_run callback l = (Ok false, l).
Proof.
  induction l as [|y l IH]; simpl; intros H; [reflexivity|].
  rewrite (H y (or_introl eq_refl)), IH; [reflexivity|].
  intros z Hz. apply H. now right.
Qed.

(** When the callback completes on every element, the two methods are
    the conjunction and the disjunction of its results. *)
Lemma every_run_total (l : list A) :
  (forall x, In x l -> completes (callback x) = true) ->
  exists b, fst (every_run callback l) = Ok b.
Proof.
  induction l as [|x l IH]; simpl; intros H; [now exists true|].
  pose proof (H x (or_introl eq_refl)) as Hx.
  destruct (callback x) as [[|]|e]; simpl in *; try discriminate.
  - destruct IH as [b Hb]; [intros y Hy; apply H; now right|].
    destruct (every_run callback l). now exists b.
  - now exists false.
Qed.

Lemma some_run_total (l : list A) :
  (forall x, In x l -> completes (callback x) = true) ->
  exists b, fst (some_run callback l) = Ok b.
Proof.
  induction l as [|x l IH]; simpl; intros H; [now exists false|].
  pose proof (H x (or_introl eq_refl)) as Hx.
  destruct (callback x) as [[|]|e]; simpl in *; try discriminate.
  - now exists true.
  - destruct IH as [b Hb]; [intros y Hy; apply H; now right|].
    destruct (some_run callback l). now exists b.
Qed.

Lemma some_run_true_total (l : list A) :
  (forall x, In x l -> completes (callback x) = true) ->
  fst (some_run callback l) = Ok true <->
  exists x, In x l /\ callback x = Ok true.
Proof.
  intros H. induction l as [|x l IH]; simpl.
  - split; [discriminate|]. now intros (y & [] & _).
  - pose proof (H x (or_introl eq_refl)) as Hx.
    destruct (callback x) as [[|]|e] eqn:Ex; simpl in *; try discriminate.
    + split; [intros _; exists x; auto|reflexivity].
    + destruct (some_run callback l) as [r seen]; simpl in *.
      rewrite IH by (intros y Hy; apply H; now right). split.
      * intros (y & Hy & Ey). exists y. auto.
      * intros (y & [<-|Hy] & Ey); [congruence|]. exists y. auto.
Qed.
End IterationFacts.

Section ForEachFacts.
Context {A B : Type}.
Variable callback : A -> Outcome B.

Lemma forEach_run_all (l : list A) :
  (forall x, In x l -> completes (callback x) = true) ->
  forEach_run callback l = (Ok tt, l).
Proof.
  induction l as [|x l IH]; simpl; intros H; [reflexivity|].
  pose proof (H x (or_introl eq_refl)) as Hx.
  destruct (callback x); [|discriminate].
  rewrite IH; [reflexivity|]. intros y Hy. apply H. now right.
Qed.

(** [forEach] is aborted by the first exception of the callback. *)
Lemma forEach_run_stops (l1 l2 : list A) (x : A) (e : JSError) :
  (forall y, In y l1 -> completes (callback y) = true) ->
  callback x = Throw e ->
  forEach_run callback (l1 ++ x :: l2) = (Throw e, l1 ++ [x]).
Proof.
  intros H1 Hx. induction l1 as [|y l1 IH]; simpl.
  - now rewrite Hx.
  - pose proof (H1 y (or_introl eq_refl)) as Hy.
    destruct (callback y); [|discriminate].
    rewrite IH; [reflexivity|]. intros z Hz. apply H1. now right.
Qed.

(** Every list either passes entirely or has a first element on which
    the callback throws. *)
Lemma first_failure (l : list A) :
  (forall x, In x l -> completes (callback x) = true) \/
  exists l1 x l2 e, l = l1 ++ x :: l2 /\ callback x = Throw e
    /\ forall y, In y l1 -> completes (callback y) = true.
Proof.
  induction l as [|x l IH].
  - left. intros x [].
  - destruct (callback x) as [b|e] eqn:Hx.
    + destruct IH as [IH|(l1 & y & l2 & e & -> & Hy & Hl1)].
      * left. intros y [<-|Hy]; [now rewrite Hx|auto].
      * right. exists (x :: l1), y, l2, e. repeat split; auto.
        intros z [<-|Hz]; [now rewrite Hx|auto].
    + right. exists [], x, l, e. repeat split; auto.
Qed.
End ForEachFacts.

(** ** Conversions *)

(** Induction on values, through the elements of arrays. *)
Lemma JSValue_induction (P : JSValue -> Prop) :
  P JSUndefined -> P JSNull ->
  (forall b, P (JSBoolean b)) -> (forall n, P (JSNumber n)) ->
  (forall s, P (JSString s)) ->
  (forall loc, P (JSArray loc [])) ->
  (forall loc x l, P x -> P (JSArray loc l) -> P (JSArray loc (x :: l))) ->
  (forall loc props, P (JSObject loc props)) ->
  forall v, P v.
Proof.
  intros Hu Hn Hb Hnum Hs Hnil Hcons Hobj.
  fix IH 1. intros [| |b|n|s|loc elems|loc props].
  - exact Hu.
  - exact Hn.
  - exact (Hb b).
  - exact (Hnum n).
  - exact (Hs s).
  - induction elems as [|x l IHl].
    + exact (Hnil loc).
    + exact (Hcons loc x l (IH x) IHl).
  - exact (Hobj loc props).
Qed.

Section ConversionFacts.
Context {engine : Engine}.

Lemma ToString_cons (loc : positive) (x : JSValue) (l : list JSValue) :
  ToString (JSArray loc (x :: l))
  = (sx <- (match x with
            | JSUndefined | JSNull => Ok ""
            | _ => ToString x
            end) ;;
     match l with
     | [] => Ok sx
     | _ :: _ => rest <- ToString (JSArray loc l) ;; Ok (sx ++ "," ++ rest)%string
     end).
Proof. reflexivity. Qed.

Lemma convertible_cons (loc : positive) (x : JSValue) (l : list JSValue) :
  convertible (JSArray loc (x :: l))
  = convertible x && convertible (JSArray loc l).
Proof. reflexivity. Qed.

(** ToString completes exactly on the values that convert, and raises
    one error on the others. *)
Lemma ToString_convertible (v : JSValue) :
  if convertible v then exists s, ToString v = Ok s
  else ToString v = Throw conversionError.
Proof.
  induction v as [| |b|n|s|loc|loc x l IHx IHl|loc props]
    using JSValue_induction;
    try (simpl; eexists; reflexivity).
  - rewrite convertible_cons, ToString_cons.
    assert (Hx : if convertible x
                 then exists s, match x with
                                | JSUndefined | JSNull => Ok ""
                                | _ => ToString x
                                end = Ok s
                 else match x with
                      | JSUndefined | JSNull => Ok ""
                      | _ => ToString x
                      end = Throw conversionError).
    { destruct x; try exact IHx; eexists; reflexivity. }
    destruct (convertible x).
    + destruct Hx as [sx ->]. cbn [bind andb].
      destruct l as [|y l]; [eexists; reflexivity|].
      destruct (convertible (JSArray loc (y :: l))).
      * destruct IHl as [rest ->]. eexists. reflexivity.
      * rewrite IHl. reflexivity.
    + rewrite Hx. reflexivity.
  - simpl. destruct (HasOwnProperty props "toString"); simpl;
      [reflexivity|eexists; reflexivity].
Qed.

Lemma convertible_completes (v : JSValue) :
  completes (ToString v) = convertible v.
Proof.
  pose proof (ToString_convertible v) as H.
  destruct (convertible v); [destruct H as [s ->]|rewrite H]; reflexivity.
Qed.

(** The conversions the engine applies complete together, and raise
    the same error together. *)
Lemma conversions (v : JSValue) :
  if convertible v
  then exists s d t n,
         ToString v = Ok s /\ isDate v = Ok d
         /\ DateTime.new_Date v = Ok t /\ Number v = Ok n
  else ToString v = Throw conversionError
       /\ isDate v = Throw conversionError
       /\ DateTime.new_Date v = Throw conversionError
       /\ Number v = Throw conversionError.
Proof.
  pose proof (ToString_convertible v) as H.
  unfold isDate, DateTime.Date_parse, DateTime.new_Date, Number, ToNumber,
    ToPrimitive.
  destruct (convertible v).
  - destruct H as [s Hs]. rewrite Hs.
    destruct v; cbn [bind]; do 4 eexists; repeat split; reflexivity.
  - rewrite H. destruct v; repeat split; try reflexivity;
      simpl in H; discriminate.
Qed.

Lemma conversions_raise (v : JSValue) :
  convertible v = false ->
  ToString v = Throw conversionError
  /\ isDate v = Throw conversionError
  /\ DateTime.new_Date v = Throw conversionError
  /\ Number v = Throw conversionError.
Proof.
  intros H. pose proof (conversions v) as Hc. now rewrite H in Hc.
Qed.

Lemma conversions_complete (v : JSValue) :
  convertible v = true ->
  exists s d t n,
    ToString v = Ok s /\ isDate v = Ok d
    /\ DateTime.new_Date v = Ok t /\ Number v = Ok n.
Proof.
  intros H. pose proof (conversions v) as Hc. now rewrite H in Hc.
Qed.

(** A string converts to itself, is parsed by [new Date] and is a date
    when [Date.parse] reads it. *)
Lemma conversions_string (s : string) :
  ToString (JSString s) = Ok s
  /\ isDate (JSString s) = Ok (negb (DateTime.isNaN (DateTime.parse s)))
  /\ DateTime.new_Date (JSString s) = Ok (DateTime.parse s)
  /\ Number (JSString s) = Ok (StringToNumber s).
Proof. repeat split. Qed.
End ConversionFacts.

(** ** Ordering operators *)

Lemma SFcompare_swap (x y : number) :
  SFcompare y x = option_map CompOpp (SFcompare x y).
Proof.
  destruct x as [sx|sx| |sx mx ex], y as [sy|sy| |sy my ey]; simpl;
    try reflexivity;
    try (destruct sx; reflexivity); try (destruct sy; reflexivity);
    try (destruct sx, sy; reflexivity).
  change (Pos.compare_cont Eq my mx) with (my ?= mx)%positive.
  change (Pos.compare_cont Eq mx my) with (mx ?= my)%positive.
  rewrite (Z.compare_antisym ex ey), (Pos.compare_antisym mx my).
  destruct sx, sy; simpl; try reflexivity;
    destruct (ex ?= ey)%Z; simpl; try reflexivity;
    destruct (mx ?= my)%positive; reflexivity.
Qed.

Lemma numbers_holds (op : RuleOperator) (m n : number) :
  isOrdering op = true ->
  match op with
  | GT => Num.gt m n
  | GTE => Num.ge m n
  | LT => Num.lt m n
  | _ => Num.le m n
  end = match SFcompare m n with
        | Some c => holds op c
        | None => false
        end.
Proof.
  unfold Num.gt, Num.ge, Num.lt, Num.le, SFltb, SFleb.
  destruct op; try discriminate; intros _;
    try rewrite (SFcompare_swap m n);
    destruct (SFcompare m n) as [[]|]; reflexivity.
Qed.

Lemma dates_holds (op : RuleOperator) (t u : DateTime.timeValue) :
  isOrdering op = true ->
  match op with
  | GT => DateTime.gt t u
  | GTE => DateTime.ge t u
  | LT => DateTime.lt t u
  | _ => DateTime.le t u
  end = match t, u with
        | Some t, Some u => holds op (t ?= u)%Z
        | _, _ => false
        end.
Proof.
  unfold DateTime.gt, DateTime.ge, DateTime.lt, DateTime.le,
    DateTime.compareWith, Z.gtb, Z.geb, Z.ltb, Z.leb.
  destruct op; try discriminate; intros _;
    destruct t as [t|], u as [u|];
    try reflexivity; destruct (t ?= u)%Z; reflexivity.
Qed.

Section OrderingFacts.
Context {engine : Engine}.

(** An ordering entry of the dispatch table, on results of the
    conversions. *)
Lemma ordering_converted (op : RuleOperator) (x y : JSValue)
    (dx dy : bool) (tx ty : DateTime.timeValue) (nx ny : number) :
  isOrdering op = true ->
  isDate x = Ok dx -> isDate y = Ok dy ->
  DateTime.new_Date x = Ok tx -> DateTime.new_Date y = Ok ty ->
  Number x = Ok nx -> Number y = Ok ny ->
  operatorsPredicate op x y
  = Ok (if dx && dy
        then match tx, ty with
             | Some t, Some u => holds op (t ?= u)%Z
             | _, _ => false
             end
        else match SFcompare nx ny with
             | Some c => holds op c
             | None => false
             end).
Proof.
  intros Hop Hdx Hdy Htx Hty Hnx Hny.
  rewrite <- (dates_holds op tx ty Hop), <- (numbers_holds op nx ny Hop).
  destruct op; try discriminate; unfold operatorsPredicate, and_then;
    rewrite Hdx, Hdy, Htx, Hty, Hnx, Hny;
    destruct dx, dy; reflexivity.
Qed.

(** An ordering entry raises as soon as one of its operands does not
    convert. *)
Lemma ordering_raises (op : RuleOperator) (x y : JSValue) :
  isOrdering op = true ->
  convertible x = false \/ convertible y = false ->
  operatorsPredicate op x y = Throw conversionError.
Proof.
  intros Hop H.
  destruct (convertible x) eqn:Hx.
  - destruct H as [H|Hy]; [discriminate|].
    destruct (conversions_complete x Hx) as (sx & dx & tx & nx & _ & Hdx & Htx & Hnx).
    destruct (conversions_raise y Hy) as (_ & Hdy & Hty & Hny).
    destruct op; try discriminate; unfold operatorsPredicate, and_then;
      rewrite Hdx, Hdy, Hnx, Hny; destruct dx; reflexivity.
  - destruct (conversions_raise x Hx) as (_ & Hdx & _).
    destruct op; try discriminate; unfold operatorsPredicate, and_then;
      rewrite Hdx; reflexivity.
Qed.

Lemma ordering_completes (op : RuleOperator) (x y : JSValue) :
  isOrdering op = true ->
  completes (operatorsPredicate op x y) = convertible x && convertible y.
Proof.
  intros Hop.
  destruct (convertible x) eqn:Hx, (convertible y) eqn:Hy;
    try (rewrite ordering_raises by auto; reflexivity).
  destruct (conversions_complete x Hx) as (sx & dx & tx & nx & _ & Hdx & Htx & Hnx).
  destruct (conversions_complete y Hy) as (sy & dy & ty & ny & _ & Hdy & Hty & Hny).
  now rewrite (ordering_converted op x y dx dy tx ty nx ny).
Qed.

End OrderingFacts.



(** ** Aggregation *)

Section CompletionFacts.
Context {engine : Engine}.
Variable pickValueFromObject : string -> JSRecord -> Outcome JSValue.

(** The callback raises when the lookup does, or when the operator
    raises on the value the lookup returns. *)
Lemma operatorsPredicate_completes (r : Rule) (v : JSValue) :
  completes (operatorsPredicate (operator r) v (value r)) = negb (raises r v).
Proof.
  destruct r as [a op w]. unfold raises. cbn [operator value].
  destruct op;
    try (rewrite ordering_completes by reflexivity;
         destruct (convertible v), (convertible w); reflexivity);
    try reflexivity;
    destruct w; try reflexivity; cbn [operatorsPredicate includes];
    rewrite <- convertible_completes;
    destruct (ToString v); reflexivity.
Qed.

Lemma predicate_completes (context : JSRecord) (r : Rule) :
  completes (predicate pickValueFromObject context r)
  = match pickValueFromObject (attribute r) context with
    | Ok v => negb (raises r v)
    | Throw _ => false
    end.
Proof.
  destruct r as [a op w]. cbn [predicate attribute].
  destruct (pickValueFromObject a context) as [v|e]; [|reflexivity].
  exact (operatorsPredicate_completes
           {| attribute := a; operator := op; value := w |} v).
Qed.

Lemma predicate_lookup (context : JSRecord) (r : Rule) (v : JSValue) :
  pickValueFromObject (attribute r) context = Ok v ->
  predicate pickValueFromObject context r
  = operatorsPredicate (operator r) v (value r).
Proof.
  destruct r as [a op w]. cbn [predicate attribute operator value].
  now intros ->.
Qed.

Lemma predicate_lookup_raises (context : JSRecord) (r : Rule) (e : JSError) :
  pickValueFromObject (attribute r) context = Throw e ->
  predicate pickValueFromObject context r = Throw e.
Proof.
  destruct r as [a op w]. cbn [predicate attribute operator value].
  now intros ->.
Qed.
End CompletionFacts.

(** C2, as stated, fails: under [someAreValid] a rule that raises before
    a matching rule is reached makes the evaluation raise, although a
    rule matches. The rules are those of a list that [validateRules]
    accepts; the first one compares a plain object that has an own
    [toString] property. *)
Lemma aggregation_counterexample :
  ~ @aggregationAsStated strictEngine pickByPath shadowingContext
      comparisonThenMatchRules.
Proof.
  intros (_ & _ & H).
  assert (Hm : exists r, In r comparisonThenMatchRules
                         /\ @matches strictEngine pickByPath shadowingContext r).
  { exists {| attribute := "b"; operator := EQ; value := JSString "y" |}.
    split; [right; left; reflexivity|reflexivity]. }
  apply H in Hm. vm_compute in Hm. discriminate.
Qed.

(** C2, amended. Under the default (options left out, or [someAreValid]
    false) the evaluation returns true iff every rule matches, and it
    stops at the first rule that does not. Under [someAreValid] it
    returns true iff some rule matches and every rule before the first
    such rule was rejected without an exception; it stops at that rule.
    When no rule of the list raises on the context, that is: iff at
    least one rule matches, and both modes return a boolean. A matching
    equality rule followed by a non-matching one gives false by default
    and true under [someAreValid]. *)
Theorem aggregation_modes (engine : Engine)
    (pickValueFromObject : string -> JSRecord -> Outcome JSValue)
    (context : JSRecord) (rules : list Rule) :
  let evaluate := isContextValid pickValueFromObject context in
  let run := isContextValid_run pickValueFromObject context in
  let matches := matches pickValueFromObject context in
  let rejects r := predicate pickValueFromObject context r = Ok false in
  evaluate rules None = evaluate rules (withSomeAreValid false)
  /\ (evaluate rules None = Ok true <-> forall r, In r rules -> matches r)
  /\ ((forall r, In r rules -> matches r) -> run rules None = (Ok true, rules))
  /\ (forall l1 r l2,
        rules = l1 ++ r :: l2 -> (forall x, In x l1 -> matches x) ->
        rejects r -> run rules None = (Ok false, l1 ++ [r]))
  /\ ((forall r, In r rules -> rejects r) ->
      run rules (withSomeAreValid true) = (Ok false, rules))
  /\ (evaluate rules (withSomeAreValid true) = Ok true
      <-> exists l1 r l2, rules = l1 ++ r :: l2 /\ matches r
                          /\ forall x, In x l1 -> rejects x)
  /\ (forall l1 r l2,
        rules = l1 ++ r :: l2 -> (forall x, In x l1 -> rejects x) ->
        matches r -> run rules (withSomeAreValid true) = (Ok true, l1 ++ [r]))
  /\ ((forall r, In r rules ->
         completes (predicate pickValueFromObject context r) = true) ->
      (evaluate rules (withSomeAreValid true) = Ok true
       <-> exists r, In r rules /\ matches r)
      /\ (exists b, evaluate rules None = Ok b)
      /\ (exists b, evaluate rules (withSomeAreValid true) = Ok b))
  /\ (forall a1 v1 a2 v2,
        let m := {| attribute := a1; operator := EQ; value := v1 |} in
        let n := {| attribute := a2; operator := EQ; value := v2 |} in
        matches m -> rejects n ->
        evaluate [m; n] None = Ok false
        /\ evaluate [m; n] (withSomeAreValid true) = Ok true).
Proof.
  cbv zeta. repeat split.
  - apply every_run_true.
  - apply every_run_true.
  - now apply every_run_all.
  - intros l1 r l2 -> H1 Hr. unfold isContextValid_run. simpl.
    rewrite every_run_stops; auto; rewrite Hr; [reflexivity|discriminate].
  - now apply some_run_none.
  - apply some_run_true.
  - apply some_run_true.
  - intros l1 r l2 -> H1 Hr. unfold isContextValid_run. simpl.
    unfold matches in Hr.
    rewrite some_run_stops; auto; rewrite Hr; [reflexivity|discriminate].
  - now apply some_run_true_total.
  - now apply some_run_true_total.
  - now apply every_run_total.
  - now apply some_run_total.
  - unfold isContextValid, isContextValid_run, matches in *.
    cbn -[predicate]. rewrite H. cbn -[predicate]. rewrite H0. reflexivity.
  - unfold isContextValid, isContextValid_run, matches in *.
    cbn -[predicate]. rewrite H. reflexivity.
Qed.

Lemma aggregation_modes_witness :
  (forall r,
      In r [ {| attribute := "a"; operator := EQ; value := JSString "x" |};
             {| attribute := "customer.group"; operator := IN;
                value := JSArray 2%positive [JSString "vip"] |} ] ->
      completes (@predicate strictEngine pickByPath sampleContext r) = true)
  /\ @isContextValid strictEngine pickByPath sampleContext
       [ {| attribute := "a"; operator := EQ; value := JSString "x" |};
         {| attribute := "a"; operator := EQ; value := JSString "y" |} ]
       None = Ok false
  /\ @isContextValid strictEngine pickByPath sampleContext
       [ {| attribute := "a"; operator := EQ; value := JSString "x" |};
         {| attribute := "a"; operator := EQ; value := JSString "y" |} ]
       (withSomeAreValid true) = Ok true
  /\ exists b,
       @isContextValid strictEngine pickByPath sampleContext
         [ {| attribute := "a"; operator := EQ; value := JSString "x" |};
           {| attribute := "customer.group"; operator := IN;
              value := JSArray 2%positive [JSString "vip"] |} ]
         (withSomeAreValid true) = Ok b.
Proof.
  assert (He : forall r,
      In r [ {| attribute := "a"; operator := EQ; value := JSString "x" |};
             {| attribute := "customer.group"; operator := IN;
                value := JSArray 2%positive [JSString "vip"] |} ] ->
      completes (@predicate strictEngine pickByPath sampleContext r) = true).
  { intros r [<-|[<-|[]]]; reflexivity. }
  split; [exact He|].
  pose proof (aggregation_modes strictEngine pickByPath sampleContext
    [ {| attribute := "a"; operator := EQ; value := JSString "x" |};
      {| attribute := "customer.group"; operator := IN;
         value := JSArray 2%positive [JSString "vip"] |} ]) as H.
  cbv zeta in H.
  destruct H as (_ & _ & _ & _ & _ & _ & _ & Htotal & Hpair).
  destruct (Hpair "a" (JSString "x") "a" (JSString "y") eq_refl eq_refl)
    as [Hd Hs].
  split; [exact Hd|]. split; [exact Hs|].
  apply (Htotal He).
Defined.

(** C3, as stated, fails under [someAreValid]: no rule of an empty list
    matches. *)
Lemma empty_rule_list_counterexample :
  ~ @emptyAsStated strictEngine pickByPath sampleContext (withSomeAreValid true).
Proof. unfold emptyAsStated. vm_compute. discriminate. Qed.

(** C3, amended. Whatever the context, the empty rule list evaluates to
    true under the default (options left out, or [someAreValid] false)
    and to false under [someAreValid]. *)
Theorem empty_rule_list (engine : Engine)
    (pickValueFromObject : string -> JSRecord -> Outcome JSValue)
    (context : JSRecord) :
  isContextValid pickValueFromObject context [] None = Ok true
  /\ isContextValid pickValueFromObject context [] (withSomeAreValid false) = Ok true
  /\ isContextValid pickValueFromObject context [] (withSomeAreValid true) = Ok false
  /\ isContextValid_run pickValueFromObject context [] None = (Ok true, [])
  /\ isContextValid_run pickValueFromObject context [] (withSomeAreValid true)
     = (Ok false, []).
Proof. repeat split. Qed.

(** ** Validation of one descriptor *)

#[local] Arguments String.eqb : simpl never.
#[local] Arguments Array_includes : simpl never.

Lemma RuleOperator_of_string_spec (o : string) :
  match RuleOperator_of_string o with
  | Some op => o = RuleOperator_value op
  | None => forall op, String.eqb (RuleOperator_value op) o = false
  end.
Proof.
  unfold RuleOperator_of_string. simpl.
  repeat match goal with
  | |- context [String.eqb ?n o] =>
      let E := fresh "E" in
      destruct (String.eqb n o) eqn:E;
      [apply String.eqb_eq in E; now subst|]
  end.
  intros []; assumption.
Qed.

Lemma RuleOperator_of_string_value (op : RuleOperator) :
  RuleOperator_of_string (RuleOperator_value op) = Some op.
Proof. destruct op; reflexivity. Qed.

Lemma unknown_operator_not_available (o : string) :
  RuleOperator_of_string o = None ->
  Array_includes availableOperators (JSString o) = false.
Proof.
  intros H. pose proof (RuleOperator_of_string_spec o) as Hs.
  rewrite H in Hs.
  assert (Hall : forall op,
             SameValueZero (JSString (RuleOperator_value op)) (JSString o)
             = false) by (intros op; apply Hs).
  unfold Array_includes, availableOperators, RuleOperator_members.
  cbn [map existsb]. rewrite !Hall. reflexivity.
Qed.

Lemma unknown_operator_not_named (o : string) (names : list RuleOperator) :
  RuleOperator_of_string o = None ->
  isOneOf (map RuleOperator_value names) (JSString o) = false.
Proof.
  intros H. pose proof (RuleOperator_of_string_spec o) as Hs.
  rewrite H in Hs. induction names as [|n names IH]; simpl; [reflexivity|].
  rewrite String.eqb_sym, (Hs n). exact IH.
Qed.

(** Every failure of [validateRule] is an [INVALID_DATA] error, and what
    it returns otherwise is [true]. *)
Lemma validateRule_outcomes (rule : JSRecord) :
  validateRule rule = Ok true
  \/ exists message, validateRule rule = Throw (MedusaError INVALID_DATA message).
Proof.
  unfold validateRule, invalidData.
  repeat match goal with
  | |- context [if ?c then _ else _] => destruct c
  end; eauto.
Qed.

(** What [validateRule] accepts: a non-empty string attribute, one of
    the eight operator names, and a value of the operator's shape. *)
Lemma validateRule_accepts (rule : JSRecord) :
  validateRule rule = Ok true <->
  exists a op,
    Get rule "attribute" = JSString a /\ a <> ""
    /\ Get rule "operator" = JSString (RuleOperator_value op)
    /\ wellShaped op (Get rule "value") = true.
Proof.
  unfold validateRule. split.
  - destruct (Get rule "attribute") as [| | | |a| |]; simpl;
      try discriminate;
      try (destruct b; discriminate);
      try (destruct n; discriminate);
      try (repeat match goal with
                  | |- context [if ?c then _ else _] => destruct c
                  end; discriminate).
    destruct a as [|c a]; [discriminate|]. simpl.
    destruct (Get rule "operator") as [| | | |o| |]; simpl;
      try discriminate;
      try (destruct b; discriminate);
      try (destruct n; discriminate);
      try (repeat match goal with
                  | |- context [if ?c then _ else _] => destruct c
                  end; discriminate).
    destruct o as [|d o]; [discriminate|]. simpl.
    pose proof (RuleOperator_of_string_spec (String d o)) as Hs.
    destruct (RuleOperator_of_string (String d o)) as [op|] eqn:Hop.
    + rewrite Hs. intros H. exists (String c a), op.
      repeat split; try discriminate.
      destruct op; destruct (Get rule "value") as [| |[]|[]|[|]| |];
        vm_compute in H |- *; try discriminate; reflexivity.
    + rewrite (unknown_operator_not_available _ Hop). simpl.
      destruct (ToBoolean (Get rule "value")); discriminate.
  - intros (a & op & -> & Ha & -> & Hv).
    destruct a as [|c a]; [congruence|].
    destruct op; destruct (Get rule "value") as [| |[]|[]|[|]| |];
      vm_compute in Hv |- *; try discriminate; reflexivity.
Qed.

(** An accepted descriptor is a rule of the type [Rule], and evaluable. *)
Lemma validateRule_asRule (rule : JSRecord) :
  validateRule rule = Ok true ->
  exists r, asRule rule = Some r /\ evaluable r = true.
Proof.
  intros H. apply validateRule_accepts in H.
  destruct H as (a & op & Ha & _ & Ho & Hv).
  unfold asRule. rewrite Ha, Ho, RuleOperator_of_string_value.
  eexists. split; [reflexivity|exact Hv].
Qed.

(** [validateRule] agrees with the specified notion of a structurally
    invalid descriptor. *)
Lemma validateRule_structure (rule : JSRecord) :
  completes (validateRule rule) = negb (structurallyInvalid rule).
Proof.
  unfold validateRule, structurallyInvalid.
  destruct (Get rule "attribute") as [| |[]|[]|[|c a]| |]; simpl;
    try reflexivity;
    try (repeat match goal with
                | |- context [if ?c then _ else _] => destruct c
                end; simpl; rewrite ?orb_true_r; reflexivity).
  all: destruct (Get rule "operator") as [| |[]|[]|[|d o]| |]; simpl;
    try reflexivity;
    try (repeat match goal with
                | |- context [if ?c then _ else _] => destruct c
                end; simpl; rewrite ?orb_true_r; reflexivity).
  all: pose proof (RuleOperator_of_string_spec (String d o)) as Hs;
    destruct (RuleOperator_of_string (String d o)) as [op|] eqn:Hop.
  all: try (rewrite Hs;
            destruct op; destruct (Get rule "value") as [| |[]|[]|[|]| |];
            reflexivity).
  all: rewrite (unknown_operator_not_available _ Hop);
    pose proof (unknown_operator_not_named (String d o)
                  [IN; NIN; EQ; NE; GT; GTE; LT; LTE] Hop) as Hn;
    simpl in Hn; simpl; rewrite Hn;
    destruct (ToBoolean (Get rule "value")); simpl;
    rewrite ?orb_true_r; reflexivity.
Qed.

Lemma validateRule_completes (rule : JSRecord) :
  completes (validateRule rule) = true <-> validateRule rule = Ok true.
Proof.
  destruct (validateRule_outcomes rule) as [H|[m H]]; rewrite H; simpl.
  - tauto.
  - split; discriminate.
Qed.

(** C5. [validateRule] fails, with an [INVALID_DATA] error, exactly on
    the structurally invalid descriptors: attribute, operator or value
    missing or falsy; attribute or operator not a string; operator not
    one of in, nin, eq, ne, gt, gte, lt, lte; operator in or nin with a
    value that is not a sequence; any other operator with a value that
    is not a single string. On every other descriptor it returns
    [true]. *)
Theorem validateRule_fails_exactly (rule : JSRecord) :
  (validateRule rule = Ok true
   \/ exists message,
       validateRule rule = Throw (MedusaError INVALID_DATA message))
  /\ ((exists message,
         validateRule rule = Throw (MedusaError INVALID_DATA message))
      <-> structurallyInvalid rule = true)
  /\ (validateRule rule = Ok true <-> structurallyInvalid rule = false)
  /\ validateRule (descriptor (JSString "x") (JSString "eq") (JSString "y"))
     = Ok true
  /\ (exists message,
        validateRule
          (descriptor (JSString "x") (JSString "bogus") (JSString "y"))
        = Throw (MedusaError INVALID_DATA message)).
Proof.
  pose proof (validateRule_structure rule) as Hs.
  pose proof (validateRule_outcomes rule) as Ho.
  split; [exact Ho|]. split; [|split; [|split]].
  - destruct Ho as [H|[m H]]; rewrite H in *; simpl in Hs.
    + destruct (structurallyInvalid rule); [discriminate|].
      split; [intros [m Hm]; discriminate|discriminate].
    + destruct (structurallyInvalid rule); [|discriminate].
      split; [reflexivity|]. intros _. now exists m.
  - destruct Ho as [H|[m H]]; rewrite H in *; simpl in Hs.
    + destruct (structurallyInvalid rule); [discriminate|]. tauto.
    + destruct (structurallyInvalid rule); [|discriminate].
      split; discriminate.
  - reflexivity.
  - eexists. reflexivity.
Qed.

(** ** Letter case of the operator *)

Lemma operator_names_lower_case (op : RuleOperator) :
  toLowerCase (RuleOperator_value op) = RuleOperator_value op.
Proof. destruct op; reflexivity. Qed.

Lemma Get_withOperator (op : JSValue) (rule : JSRecord) :
  Get (withOperator op rule) "attribute" = Get rule "attribute"
  /\ Get (withOperator op rule) "operator" = op
  /\ Get (withOperator op rule) "value" = Get rule "value".
Proof. repeat split. Qed.

(** C6, as stated, fails: the operator "EQ" is rejected although the
    same descriptor with "eq" is accepted. *)
Lemma operator_case_counterexample :
  ~ caseInsensitiveAsStated
      (descriptor (JSString "x") (JSString "EQ") (JSString "y")).
Proof.
  intros H. specialize (H "EQ" eq_refl eq_refl).
  vm_compute in H. discriminate.
Qed.

(** C6, amended. The operator is compared as it is written with the
    eight lower-case names, and nothing converts it: a descriptor whose
    operator is not in lower case is rejected with an [INVALID_DATA]
    error, and when it differs from an acceptable descriptor only in the
    letter case of the operator, the error is that the operator is not
    supported. *)
Theorem operator_case_sensitive (rule : JSRecord) (op : string)
    (Hop : Get rule "operator" = JSString op)
    (Hcase : toLowerCase op <> op) :
  (exists message,
      validateRule rule = Throw (MedusaError INVALID_DATA message))
  /\ (validateRule (withOperator (JSString (toLowerCase op)) rule) = Ok true ->
      validateRule rule
      = Throw (MedusaError INVALID_DATA (unsupportedOperator (JSString op)))).
Proof.
  assert (Hnone : RuleOperator_of_string op = None).
  { pose proof (RuleOperator_of_string_spec op) as Hs.
    destruct (RuleOperator_of_string op) as [o|]; [|reflexivity].
    subst op. now rewrite operator_names_lower_case in Hcase. }
  split.
  - destruct (validateRule_outcomes rule) as [H|H]; [|exact H].
    apply validateRule_accepts in H.
    destruct H as (a & o & _ & _ & Ho & _).
    rewrite Hop in Ho. injection Ho as ->.
    now rewrite operator_names_lower_case in Hcase.
  - intros H. apply validateRule_accepts in H.
    destruct H as (a & o & Ha & Hne & _ & Hv).
    destruct (Get_withOperator (JSString (toLowerCase op)) rule)
      as (Ea & _ & Ev).
    rewrite Ea in Ha. rewrite Ev in Hv.
    unfold validateRule. rewrite Ha, Hop.
    rewrite (unknown_operator_not_available op Hnone).
    destruct a as [|c a]; [congruence|].
    destruct op as [|d op]; [now simpl in Hcase|].
    assert (Ht : ToBoolean (Get rule "value") = true).
    { destruct o; simpl in Hv.
      1,2: destruct (Get rule "value"); try discriminate; reflexivity.
      all: now apply andb_prop in Hv. }
    simpl. rewrite Ht. reflexivity.
Qed.

Lemma operator_case_sensitive_witness :
  Get (descriptor (JSString "x") (JSString "In") (JSArray 1%positive []))
    "operator" = JSString "In"
  /\ toLowerCase "In" <> "In"
  /\ validateRule
       (descriptor (JSString "x") (JSString "In") (JSArray 1%positive []))
     = Throw (MedusaError INVALID_DATA (unsupportedOperator (JSString "In"))).
Proof.
  split; [reflexivity|]. split; [discriminate|].
  apply (operator_case_sensitive
           (descriptor (JSString "x") (JSString "In") (JSArray 1%positive []))
           "In" eq_refl); [discriminate|reflexivity].
Defined.

(** ** Validation of a list *)

Lemma validateRules_run_all (rules : list JSRecord) :
  (forall r, In r rules -> validateRule r = Ok true) ->
  validateRules_run rules = (Ok true, rules).
Proof.
  intros H. unfold validateRules_run.
  rewrite forEach_run_all; [reflexivity|].
  intros r Hr. apply validateRule_completes. auto.
Qed.

Lemma validateRules_run_stops (l1 l2 : list JSRecord) (r : JSRecord)
    (e : JSError) :
  (forall x, In x l1 -> validateRule x = Ok true) ->
  validateRule r = Throw e ->
  validateRules_run (l1 ++ r :: l2) = (Throw e, l1 ++ [r]).
Proof.
  intros H1 Hr. unfold validateRules_run.
  rewrite (forEach_run_stops validateRule l1 l2 r e); [reflexivity| |exact Hr].
  intros x Hx. apply validateRule_completes. auto.
Qed.

Lemma validateRules_cases (rules : list JSRecord) :
  (forall r, In r rules -> validateRule r = Ok true)
  \/ exists l1 r l2 e,
       rules = l1 ++ r :: l2
       /\ (forall x, In x l1 -> validateRule x = Ok true)
       /\ validateRule r = Throw e.
Proof.
  destruct (first_failure validateRule rules)
    as [H|(l1 & r & l2 & e & Heq & Hr & H1)].
  - left. intros r Hr. apply validateRule_completes. auto.
  - right. exists l1, r, l2, e. repeat split; auto.
    intros x Hx. apply validateRule_completes. auto.
Qed.

Lemma validateRules_true (rules : list JSRecord) :
  validateRules rules = Ok true
  <-> forall r, In r rules -> validateRule r = Ok true.
Proof.
  unfold validateRules. split.
  - intros H.
    destruct (validateRules_cases rules)
      as [Hall|(l1 & r & l2 & e & -> & H1 & Hr)]; [exact Hall|].
    rewrite (validateRules_run_stops l1 l2 r e H1 Hr) in H. discriminate.
  - intros H. now rewrite validateRules_run_all.
Qed.

(** C8. [validateRules] applies [validateRule] to the elements in order.
    It returns [true] iff every element passes, having then visited them
    all; otherwise it fails with the error of the first element that
    does not pass, and no later element is visited. On a list of a
    valid, an invalid and a third descriptor it fails on the second
    without validating the third. *)
Theorem validateRules_fail_fast (rules : list JSRecord) :
  (validateRules rules = Ok true
   <-> forall r, In r rules -> validateRule r = Ok true)
  /\ (validateRules rules = Ok true ->
      validateRules_run rules = (Ok true, rules))
  /\ (forall l1 r l2 e,
        rules = l1 ++ r :: l2 ->
        (forall x, In x l1 -> validateRule x = Ok true) ->
        validateRule r = Throw e ->
        validateRules_run rules = (Throw e, l1 ++ [r]))
  /\ (validateRules rules = Ok true
      \/ exists l1 r l2 e,
           rules = l1 ++ r :: l2
           /\ (forall x, In x l1 -> validateRule x = Ok true)
           /\ validateRule r = Throw e
           /\ validateRules rules = Throw e)
  /\ (forall valid invalid third e,
        validateRule valid = Ok true ->
        validateRule invalid = Throw e ->
        validateRules_run [valid; invalid; third]
        = (Throw e, [valid; invalid])).
Proof.
  split; [apply validateRules_true|]. split; [|split; [|split]].
  - intros H. apply validateRules_run_all. now apply validateRules_true.
  - intros l1 r l2 e -> H1 Hr. now apply validateRules_run_stops.
  - destruct (validateRules_cases rules)
      as [Hall|(l1 & r & l2 & e & -> & H1 & Hr)].
    + left. now apply validateRules_true.
    + right. exists l1, r, l2, e. repeat split; auto.
      unfold validateRules.
      now rewrite (validateRules_run_stops l1 l2 r e H1 Hr).
  - intros valid invalid third e Hv Hi.
    apply (validateRules_run_stops [valid] [third] invalid e); [|exact Hi].
    intros x [<-|[]]. exact Hv.
Qed.

Lemma validateRules_fail_fast_witness :
  validateRules_run
    [ descriptor (JSString "x") (JSString "eq") (JSString "y");
      descriptor (JSString "x") (JSString "bogus") (JSString "y");
      descriptor (JSString "x") (JSString "in") (JSArray 1%positive []) ]
  = (Throw (MedusaError INVALID_DATA
              (unsupportedOperator (JSString "bogus"))),
     [ descriptor (JSString "x") (JSString "eq") (JSString "y");
       descriptor (JSString "x") (JSString "bogus") (JSString "y") ]).
Proof.
  apply (validateRules_fail_fast []); reflexivity.
Defined.

(** ** Validated lists evaluate *)

Lemma validated_asRules (descriptors : list JSRecord) :
  (forall d, In d descriptors -> validateRule d = Ok true) ->
  exists rules,
    asRules descriptors = Some rules
    /\ forall r, In r rules -> evaluable r = true.
Proof.
  induction descriptors as [|d descriptors IH]; intros H.
  - exists []. split; [reflexivity|intros r []].
  - destruct (validateRule_asRule d (H d (or_introl eq_refl)))
      as (r & Hr & He).
    destruct IH as (rules & Hrules & Hall);
      [intros x Hx; apply H; now right|].
    exists (r :: rules). simpl. rewrite Hr, Hrules.
    split; [reflexivity|]. intros x [<-|Hx]; auto.
Qed.

(** A rule of the shape validation checks raises only by converting the
    context value, which the ordering operators alone do. *)
Lemma evaluable_raises (r : Rule) (v : JSValue) :
  evaluable r = true ->
  raises r v = isOrdering (operator r) && negb (convertible v).
Proof.
  destruct r as [a op w]. unfold evaluable, raises.
  cbn [operator value].
  destruct op, w; simpl; try discriminate; intros _;
    rewrite ?orb_false_r; reflexivity.
Qed.

Section RaiseFacts.
Context {A : Type}.
Variable callback : A -> Outcome bool.

Lemma every_run_throw (l : list A) (e : JSError) :
  fst (every_run callback l) = Throw e ->
  exists x, In x l /\ callback x = Throw e.
Proof.
  induction l as [|x l IH]; simpl; [discriminate|].
  destruct (callback x) as [[|]|e'] eqn:Hx; simpl.
  - destruct (every_run callback l) as [r seen]; simpl in *.
    intros H. destruct (IH H) as (y & Hy & Ey). exists y. auto.
  - discriminate.
  - intros H. injection H as ->. exists x. auto.
Qed.

Lemma some_run_throw (l : list A) (e : JSError) :
  fst (some_run callback l) = Throw e ->
  exists x, In x l /\ callback x = Throw e.
Proof.
  induction l as [|x l IH]; simpl; [discriminate|].
  destruct (callback x) as [[|]|e'] eqn:Hx; simpl.
  - discriminate.
  - destruct (some_run callback l) as [r seen]; simpl in *.
    intros H. destruct (IH H) as (y & Hy & Ey). exists y. auto.
  - intros H. injection H as ->. exists x. auto.
Qed.
End RaiseFacts.

Section PredicateFacts.
Context {engine : Engine}.
Variable pickValueFromObject : string -> JSRecord -> Outcome JSValue.

(** What an entry of the dispatch table raises is a [TypeError]. *)
Lemma operatorsPredicate_error (op : RuleOperator) (v w : JSValue)
    (e : JSError) :
  operatorsPredicate op v w = Throw e ->
  exists message, e = TypeError message.
Proof.
  assert (Hord : isOrdering op = true -> operatorsPredicate op v w = Throw e ->
                 exists message, e = TypeError message).
  { intros Hop H.
    pose proof (ordering_completes op v w Hop) as Hc.
    rewrite H in Hc. symmetry in Hc. apply andb_false_iff in Hc.
    rewrite (ordering_raises op v w Hop Hc) in H.
    injection H as <-. eexists. reflexivity. }
  assert (Hinc : forall e', includes w v = Throw e' ->
                 exists message, e' = TypeError message).
  { intros e'. destruct w; cbn [includes]; try discriminate;
      try (intros H; injection H as <-; eexists; reflexivity).
    pose proof (ToString_convertible v) as Hs.
    destruct (convertible v).
    - destruct Hs as [s' ->]. discriminate.
    - rewrite Hs. intros H. injection H as <-. eexists. reflexivity. }
  destruct op; try (apply Hord; reflexivity); cbn [operatorsPredicate];
    try discriminate.
  - apply Hinc.
  - destruct (includes w v) as [b|e'] eqn:Hi; [discriminate|].
    intros H. injection H as <-. now apply Hinc.
Qed.

Lemma isContextValid_throw (context : JSRecord) (rules : list Rule)
    (options : option Options) (e : JSError) :
  isContextValid pickValueFromObject context rules options = Throw e ->
  exists r, In r rules /\ predicate pickValueFromObject context r = Throw e.
Proof.
  unfold isContextValid, isContextValid_run.
  destruct options as [[[|]]|]; simpl.
  - apply some_run_throw.
  - apply every_run_throw.
  - apply every_run_throw.
Qed.

Lemma isContextValid_total (context : JSRecord) (rules : list Rule)
    (options : option Options) :
  (forall r, In r rules ->
     completes (predicate pickValueFromObject context r) = true) ->
  exists b, isContextValid pickValueFromObject context rules options = Ok b.
Proof.
  intros Hc. unfold isContextValid, isContextValid_run.
  destruct options as [[[|]]|]; simpl.
  - now apply some_run_total.
  - now apply every_run_total.
  - now apply every_run_total.
Qed.

Lemma isContextValid_singleton (context : JSRecord) (r : Rule)
    (options : option Options) :
  isContextValid pickValueFromObject context [r] options
  = predicate pickValueFromObject context r.
Proof.
  unfold isContextValid, isContextValid_run.
  destruct options as [[[|]]|]; cbn -[predicate];
    destruct (predicate pickValueFromObject context r) as [[|]|e];
    reflexivity.
Qed.
End PredicateFacts.

(** C4, as stated, fails: [validateRules] accepts a comparison of the
    attribute [a] with "5", and evaluating it on a context whose value
    at [a] is a plain object with an own [toString] property raises a
    [TypeError] in [Date.parse]. *)
Lemma validated_rules_counterexample :
  ~ @validatedAsStated strictEngine pickByPath comparisonThenMatch
      shadowingContext.
Proof.
  intros H.
  destruct (H eq_refl comparisonThenMatchRules None eq_refl) as [b Hb].
  vm_compute in Hb. discriminate.
Qed.

(** C4, amended. A list of descriptors that [validateRules] accepts is a
    list of rules whose operators are all entries of the dispatch
    table. Such a rule evaluates without raising exactly when the lookup
    of its attribute returns a value and, if its operator is gt, gte, lt
    or lte, that value converts to a primitive; otherwise it raises what
    the lookup raised, or the [TypeError] of the conversion. On a
    context where this holds of every rule, evaluation completes with a
    boolean, in either mode. *)
Theorem validated_rules_evaluate (engine : Engine)
    (pickValueFromObject : string -> JSRecord -> Outcome JSValue)
    (descriptors : list JSRecord) (context : JSRecord)
    (Hvalid : validateRules descriptors = Ok true) :
  let returns r :=
    exists v, pickValueFromObject (attribute r) context = Ok v
              /\ (isOrdering (operator r) = true -> convertible v = true) in
  (forall d, In d descriptors ->
     exists op, Get d "operator" = JSString (RuleOperator_value op))
  /\ exists rules,
       asRules descriptors = Some rules
       /\ (forall r, In r rules ->
             (completes (predicate pickValueFromObject context r) = true
              <-> returns r)
             /\ (forall e,
                   pickValueFromObject (attribute r) context = Throw e ->
                   predicate pickValueFromObject context r = Throw e)
             /\ (forall v,
                   pickValueFromObject (attribute r) context = Ok v ->
                   isOrdering (operator r) = true ->
                   convertible v = false ->
                   predicate pickValueFromObject context r
                   = Throw conversionError))
       /\ ((forall r, In r rules -> returns r) ->
           forall options,
             exists b,
               isContextValid pickValueFromObject context rules options
               = Ok b)
       /\ (forall options e,
             isContextValid pickValueFromObject context rules options
             = Throw e ->
             exists r, In r rules /\ ~ returns r).
Proof.
  cbv zeta.
  pose proof (proj1 (validateRules_true descriptors) Hvalid) as Hall.
  split.
  - intros d Hd. apply Hall, validateRule_accepts in Hd.
    destruct Hd as (a & op & _ & _ & Ho & _). now exists op.
  - destruct (validated_asRules descriptors Hall) as (rules & Hr & He).
    exists rules. split; [exact Hr|].
    assert (Hiff : forall r, In r rules ->
              (completes (predicate pickValueFromObject context r) = true
               <-> exists v, pickValueFromObject (attribute r) context = Ok v
                             /\ (isOrdering (operator r) = true ->
                                 convertible v = true))).
    { intros r Hin. rewrite predicate_completes.
      destruct (pickValueFromObject (attribute r) context) as [v|e].
      - rewrite (evaluable_raises r v (He r Hin)). split.
        + intros H. exists v. split; [reflexivity|].
          intros Hop. rewrite Hop in H. now destruct (convertible v).
        + intros (v' & Hv & H). injection Hv as <-.
          destruct (isOrdering (operator r)); [|reflexivity].
          now rewrite H.
      - split; [discriminate|]. intros (v & Hv & _). discriminate. }
    split; [|split].
    + intros r Hin. split; [now apply Hiff|]. split.
      * intros e. apply predicate_lookup_raises.
      * intros v Hv Hop Hc.
        rewrite (predicate_lookup _ _ _ _ Hv).
        apply ordering_raises; auto.
    + intros Hret options. apply isContextValid_total.
      intros r Hin. apply Hiff; auto.
    + intros options e H.
      destruct (isContextValid_throw _ _ _ _ _ H) as (r & Hin & Er).
      exists r. split; [exact Hin|].
      intros Hret. apply (Hiff r Hin) in Hret.
      rewrite Er in Hret. discriminate.
Qed.

Lemma validated_rules_evaluate_witness :
  validateRules
    [ descriptor (JSString "a") (JSString "eq") (JSString "x");
      descriptor (JSString "customer.group") (JSString "nin")
        (JSArray 2%positive [JSString "vip"; JSNull]);
      descriptor (JSString "missing") (JSString "gte") (JSString "5") ]
  = Ok true
  /\ exists rules,
       asRules
         [ descriptor (JSString "a") (JSString "eq") (JSString "x");
           descriptor (JSString "customer.group") (JSString "nin")
             (JSArray 2%positive [JSString "vip"; JSNull]);
           descriptor (JSString "missing") (JSString "gte") (JSString "5") ]
       = Some rules
       /\ exists b,
            @isContextValid strictEngine pickByPath sampleContext rules
              (withSomeAreValid true) = Ok b.
Proof.
  split; [reflexivity|].
  destruct (validated_rules_evaluate strictEngine pickByPath
    [ descriptor (JSString "a") (JSString "eq") (JSString "x");
      descriptor (JSString "customer.group") (JSString "nin")
        (JSArray 2%positive [JSString "vip"; JSNull]);
      descriptor (JSString "missing") (JSString "gte") (JSString "5") ]
    sampleContext eq_refl)
    as (_ & rules & Hr & _ & Hb & _).
  exists rules. split; [exact Hr|]. apply Hb.
  vm_compute in Hr. injection Hr as <-.
  intros r [<-|[<-|[<-|[]]]]; eexists; (split; [reflexivity|reflexivity]).
Defined.

(** ** Membership operators *)

Lemma SameValueZero_string (x : JSValue) (s : string) :
  SameValueZero x (JSString s) = true <-> x = JSString s.
Proof.
  destruct x; simpl; split; try discriminate.
  - intros H. apply String.eqb_eq in H. now subst.
  - intros H. injection H as ->. apply String.eqb_refl.
Qed.

Lemma Array_includes_member (elems : list JSValue) (v : JSValue) :
  Array_includes elems v = true
  <-> exists x, In x elems /\ SameValueZero x v = true.
Proof. unfold Array_includes. apply existsb_exists. Qed.

(** C7. A rule with operator in and a sequence as value evaluates to
    true iff the resolved context value is a member of the sequence
    (when it is a string: iff that string occurs in it); the rule with
    operator nin and the same attribute and value evaluates to the
    negation, on the same context. *)
Theorem membership_operators (engine : Engine)
    (pickValueFromObject : string -> JSRecord -> Outcome JSValue)
    (context : JSRecord) (a : string) (loc : positive)
    (elems : list JSValue) (options : option Options)
    (contextValue : JSValue)
    (Hlookup : pickValueFromObject a context = Ok contextValue) :
  let evaluate := isContextValid pickValueFromObject context in
  let ruleIn := {| attribute := a; operator := IN; value := JSArray loc elems |} in
  let ruleNin := {| attribute := a; operator := NIN; value := JSArray loc elems |} in
  (exists b,
      evaluate [ruleIn] options = Ok b
      /\ evaluate [ruleNin] options = Ok (negb b)
      /\ predicate pickValueFromObject context ruleIn = Ok b
      /\ predicate pickValueFromObject context ruleNin = Ok (negb b)
      /\ (b = true <->
          exists x, In x elems /\ SameValueZero x contextValue = true)
      /\ (forall s, contextValue = JSString s ->
            (b = true <-> In (JSString s) elems)))
  /\ (forall v,
        predicate pickValueFromObject context
          {| attribute := a; operator := NIN; value := v |}
        = omap negb (predicate pickValueFromObject context
                       {| attribute := a; operator := IN; value := v |})).
Proof.
  cbv zeta. split.
  - exists (Array_includes elems contextValue).
    assert (Hin : predicate pickValueFromObject context
                    {| attribute := a; operator := IN;
                       value := JSArray loc elems |}
                  = Ok (Array_includes elems contextValue)).
    { cbn [predicate]. now rewrite Hlookup. }
    assert (Hnin : predicate pickValueFromObject context
                     {| attribute := a; operator := NIN;
                        value := JSArray loc elems |}
                   = Ok (negb (Array_includes elems contextValue))).
    { cbn [predicate]. now rewrite Hlookup. }
    rewrite !isContextValid_singleton.
    split; [exact Hin|]. split; [exact Hnin|].
    split; [exact Hin|]. split; [exact Hnin|]. split.
    + apply Array_includes_member.
    + intros s ->. rewrite Array_includes_member. split.
      * intros (x & Hx & Hs). apply SameValueZero_string in Hs. now subst.
      * intros H. exists (JSString s). split; [exact H|].
        now apply SameValueZero_string.
  - intros v. cbn [predicate].
    destruct (pickValueFromObject a context); reflexivity.
Qed.

Lemma membership_operators_witness :
  pickByPath "customer.group" sampleContext = Ok (JSString "vip")
  /\ @isContextValid strictEngine pickByPath sampleContext
       [ {| attribute := "customer.group"; operator := IN;
            value := JSArray 2%positive [JSString "gold"; JSString "vip"] |} ]
       None = Ok true
  /\ @isContextValid strictEngine pickByPath sampleContext
       [ {| attribute := "customer.group"; operator := NIN;
            value := JSArray 2%positive [JSString "gold"; JSString "vip"] |} ]
       None = Ok false.
Proof.
  split; [reflexivity|].
  destruct (membership_operators strictEngine pickByPath sampleContext
              "customer.group" 2%positive [JSString "gold"; JSString "vip"]
              None (JSString "vip") eq_refl)
    as ((b & Hin & Hnin & _ & _ & _ & Hs) & _).
  assert (Hb : b = true).
  { apply (Hs "vip" eq_refl). right. left. reflexivity. }
  rewrite Hb in Hin, Hnin. split; [exact Hin|exact Hnin].
Defined.

(** C9. Whatever the context and the attribute, a rule with operator in
    and an empty sequence evaluates to false, and a rule with operator
    nin and an empty sequence evaluates to true, whatever value the
    lookup of the attribute returns. *)
Theorem empty_sequence_membership (engine : Engine)
    (pickValueFromObject : string -> JSRecord -> Outcome JSValue)
    (context : JSRecord) (a : string) (loc : positive)
    (options : option Options)
    (contextValue : JSValue)
    (Hlookup : pickValueFromObject a context = Ok contextValue) :
  let ruleIn := {| attribute := a; operator := IN; value := JSArray loc [] |} in
  let ruleNin := {| attribute := a; operator := NIN; value := JSArray loc [] |} in
  predicate pickValueFromObject context ruleIn = Ok false
  /\ predicate pickValueFromObject context ruleNin = Ok true
  /\ isContextValid pickValueFromObject context [ruleIn] options = Ok false
  /\ isContextValid pickValueFromObject context [ruleNin] options = Ok true.
Proof.
  cbv zeta. rewrite !isContextValid_singleton. cbn [predicate].
  rewrite Hlookup. repeat split.
Qed.

Lemma empty_sequence_membership_witness :
  pickByPath "a" sampleContext = Ok (JSString "x")
  /\ @isContextValid strictEngine pickByPath sampleContext
       [ {| attribute := "a"; operator := IN; value := JSArray 2%positive [] |} ]
       None = Ok false
  /\ @isContextValid strictEngine pickByPath sampleContext
       [ {| attribute := "a"; operator := NIN; value := JSArray 2%positive [] |} ]
       (withSomeAreValid true) = Ok true.
Proof.
  split; [reflexivity|]. split.
  - apply (empty_sequence_membership strictEngine pickByPath sampleContext
             "a" 2%positive None (JSString "x") eq_refl).
  - apply (empty_sequence_membership strictEngine pickByPath sampleContext
             "a" 2%positive (withSomeAreValid true) (JSString "x") eq_refl).
Defined.

(** C10. For the operators in and nin, a descriptor with a non-empty
    string attribute is accepted iff its value is an array: the empty
    array is accepted, and so is an array of any elements, strings or
    not; whereas the empty string is rejected as a value, whatever the
    operator, by the check that the three fields are there. *)
Theorem membership_value_only_array (c : ascii) (a : string)
    (op : RuleOperator) (loc : positive) (elems : list JSValue)
    (v : JSValue) :
  let attribute := JSString (String c a) in
  validateRule (descriptor attribute (JSString "in") (JSArray loc [])) = Ok true
  /\ validateRule (descriptor attribute (JSString "nin") (JSArray loc []))
     = Ok true
  /\ validateRule (descriptor attribute (JSString "in") (JSArray loc elems))
     = Ok true
  /\ validateRule (descriptor attribute (JSString "nin") (JSArray loc elems))
     = Ok true
  /\ (validateRule (descriptor attribute (JSString "in") v) = Ok true
      <-> Array_isArray v = true)
  /\ (validateRule (descriptor attribute (JSString "nin") v) = Ok true
      <-> Array_isArray v = true)
  /\ validateRule
       (descriptor attribute (JSString (RuleOperator_value op)) (JSString ""))
     = Throw (MedusaError INVALID_DATA
         "Rule must have an attribute, an operator and contextValue value").
Proof.
  cbv zeta. split; [reflexivity|]. split; [reflexivity|].
  split; [reflexivity|]. split; [reflexivity|].
  split; [|split].
  - destruct v as [| |[]|[]|[|]| |]; split; try discriminate; reflexivity.
  - destruct v as [| |[]|[]|[|]| |]; split; try discriminate; reflexivity.
  - destruct op; reflexivity.
Qed.

(** ** Runs of the embedding *)

Example validateRule_runs :
  validateRule (descriptor (JSString "x") (JSString "in")
                  (JSString "not-an-array"))
  = Throw (MedusaError INVALID_DATA
             "Rule value must be an array for in/nin operators")
  /\ validateRule (descriptor (JSString "x") (JSString "in")
                     (JSArray 1%positive [JSString "a"; JSString "b"]))
     = Ok true
  /\ validateRule (descriptor (JSString "x") (JSString "gt")
                     (JSNumber (StringToNumber "0")))
     = Throw (MedusaError INVALID_DATA
                "Rule must have an attribute, an operator and contextValue value")
  /\ validateRule (descriptor (JSString "x") (JSString "gt")
                     (JSNumber (StringToNumber "5")))
     = Throw (MedusaError INVALID_DATA
                "Rule value must be a string for the selected operator gt")
  /\ validateRule [("attribute", JSString "x"); ("value", JSString "y")]
     = Throw (MedusaError INVALID_DATA
                "Rule must have an attribute, an operator and contextValue value")
  /\ validateRule (descriptor (JSNumber (StringToNumber "1")) (JSString "eq")
                     (JSString "y"))
     = Throw (MedusaError INVALID_DATA
                "Rule attribute must be contextValue string").
Proof. repeat split. Qed.

Example isContextValid_runs :
  let evaluate := @isContextValid strictEngine pickByPath sampleContext in
  let rule a op v := {| attribute := a; operator := op; value := v |} in
  evaluate [rule "customer.group" EQ (JSString "vip")] None = Ok true
  /\ evaluate [rule "customer.group" IN
                 (JSArray 2%positive [JSString "gold"; JSString "vip"])] None
     = Ok true
  /\ evaluate [rule "customer.age" EQ JSUndefined] None = Ok true
  /\ evaluate [rule "customer" NE (JSString "vip");
               rule "a" NIN (JSArray 2%positive [JSString "x"])] None
     = Ok false
  /\ @isContextValid_run strictEngine pickByPath sampleContext
       [rule "a" EQ (JSString "y"); rule "a" IN JSNull] None
     = (Ok false, [rule "a" EQ (JSString "y")])
  /\ (exists e,
        evaluate [rule "a" IN JSNull; rule "a" EQ (JSString "x")]
          (withSomeAreValid true) = Throw (TypeError e)).
Proof. cbv zeta. repeat split. eexists. reflexivity. Qed.

Example Date_parse_runs :
  forall engine : Engine,
    DateTime.parse "2024-01-01" = Some 1704067200000%Z
    /\ DateTime.parse "2023-01-01" = Some 1672531200000%Z
    /\ DateTime.parse "1970-01-01" = Some 0%Z
    /\ DateTime.parse "2024-02" = Some 1706745600000%Z
    /\ DateTime.parse "2023-02-29" = DateParseFallback "2023-02-29".
Proof. intros engine. repeat split. Qed.

Example NumberToString_runs :
  map (fun s => NumberText.toString (StringToNumber s))
    ["10"; "0.1"; "1e21"; "123456789012345680000"; "5e-324"; "-4.35";
     "0.000001"; "1e-7"; "0x1F"; " 12.50 "; "abc"; "-0"; "-Infinity"]
  = ["10"; "0.1"; "1e+21"; "123456789012345680000"; "5e-324"; "-4.35";
     "0.000001"; "1e-7"; "31"; "12.5"; "NaN"; "0"; "-Infinity"].
Proof. vm_compute. reflexivity. Qed.

Example conversion_runs :
  let evaluate := @isContextValid strictEngine pickByPath shadowingContext in
  let rule a op v := {| attribute := a; operator := op; value := v |} in
  validateRules comparisonThenMatch = Ok true
  /\ asRules comparisonThenMatch = Some comparisonThenMatchRules
  /\ evaluate [rule "a" GT (JSString "5")] None = Throw conversionError
  /\ evaluate [rule "a" GT (JSString "5"); rule "b" EQ (JSString "x")] None
     = Throw conversionError
  /\ evaluate [rule "b" EQ (JSString "x"); rule "a" GT (JSString "5")] None
     = Ok false
  /\ evaluate [rule "a" IN (JSString "xyz")] None = Throw conversionError
  /\ evaluate [rule "a.toString" IN (JSString "xyz")] None = Ok true
  /\ evaluate [rule "a" IN (JSArray 2%positive [JSString "xyz"])] None
     = Ok false
  /\ @ToString strictEngine
       (JSArray 1%positive
          [JSNull; JSString "a";
           JSArray 2%positive [JSBoolean true; JSUndefined];
           JSObject 3%positive [("valueOf", JSString "v")]])
     = Ok ",a,true,,[object Object]"
  /\ @ToString strictEngine
       (JSArray 1%positive
          [JSString "a"; JSObject 3%positive [("toString", JSNull)]])
     = Throw conversionError
  /\ @Number strictEngine (JSArray 1%positive [JSString "12"])
     = Ok (StringToNumber "12")
  /\ @DateTime.new_Date strictEngine (JSArray 1%positive [JSString "2024-02"])
     = Ok (Some 1706745600000%Z).
Proof. cbv zeta. repeat split. Qed.

(** * Further properties of the rule engine *)

(** ** When evaluation raises *)

(** X1. When the lookup of its attribute raises, evaluating a rule
    raises the same exception. When the lookup returns a value,
    evaluating the rule raises exactly in three cases: the operator is
    in or nin and the rule value is neither an array nor a string; the
    operator is in or nin, the rule value is a string and the context
    value does not convert to a primitive; the operator is gt, gte, lt
    or lte and the context value or the rule value does not convert.
    What is raised then is a [TypeError], never a [MedusaError]. The
    values that do not convert are the plain objects with an own
    [toString] property and the arrays that hold one. An evaluation of a
    rule list that raises has met a rule that raises that exception, so
    a list none of whose rules raises evaluates to a boolean. *)
Theorem evaluation_raises_exactly (engine : Engine)
    (pickValueFromObject : string -> JSRecord -> Outcome JSValue)
    (context : JSRecord) (rules : list Rule) (options : option Options) :
  (forall r e,
      pickValueFromObject (attribute r) context = Throw e ->
      predicate pickValueFromObject context r = Throw e)
  /\ (forall r v,
        pickValueFromObject (attribute r) context = Ok v ->
        (completes (predicate pickValueFromObject context r) = false
         <-> ((operator r = IN \/ operator r = NIN)
              /\ Array_isArray (value r) = false
              /\ isString (value r) = false)
             \/ ((operator r = IN \/ operator r = NIN)
                 /\ isString (value r) = true /\ convertible v = false)
             \/ (isOrdering (operator r) = true
                 /\ (convertible v = false
                     \/ convertible (value r) = false)))
        /\ (forall e,
              predicate pickValueFromObject context r = Throw e ->
              exists message, e = TypeError message))
  /\ (forall v, completes (ToString v) = convertible v)
  /\ (forall loc props,
        convertible (JSObject loc props)
        = negb (HasOwnProperty props "toString"))
  /\ (forall loc elems,
        convertible (JSArray loc elems) = forallb convertible elems)
  /\ (forall e,
        isContextValid pickValueFromObject context rules options = Throw e ->
        exists r, In r rules
                  /\ predicate pickValueFromObject context r = Throw e)
  /\ ((forall r, In r rules ->
         completes (predicate pickValueFromObject context r) = true) ->
      exists b, isContextValid pickValueFromObject context rules options = Ok b).
Proof.
  split; [|split; [|split; [|split; [|split; [|split]]]]].
  - intros r e. apply predicate_lookup_raises.
  - intros r v Hv. split.
    + rewrite predicate_completes, Hv. unfold raises.
      destruct r as [a op w]; cbn [operator value].
      destruct op, w; simpl; destruct (convertible v);
        try destruct (HasOwnProperty props "toString");
        try destruct ((fix all (l : list JSValue) : bool :=
                         match l with
                         | [] => true
                         | x :: l' => convertible x && all l'
                         end) elems);
        simpl; intuition (auto; discriminate).
    + intros e. rewrite (predicate_lookup _ _ _ _ Hv).
      apply operatorsPredicate_error.
  - apply convertible_completes.
  - reflexivity.
  - intros loc elems. induction elems as [|x l IH]; [reflexivity|].
    rewrite convertible_cons, IH. reflexivity.
  - apply isContextValid_throw.
  - apply isContextValid_total.
Qed.

(** ** Equality operators *)

Lemma IsStrictlyEqual_string (x : JSValue) (s : string) :
  IsStrictlyEqual x (JSString s) = true <-> x = JSString s.
Proof.
  destruct x; simpl; split; try discriminate.
  - intros H. apply String.eqb_eq in H. now subst.
  - intros H. injection H as ->. apply String.eqb_refl.
Qed.

(** X2. The operators eq and ne never raise and are each other's
    negation. With a string as rule value, eq accepts exactly when the
    resolved context value is that very string: nothing is coerced, so a
    number, [null], an array or a missing attribute does not match. A
    missing attribute (undefined) matches eq only against undefined. *)
Theorem equality_operators (engine : Engine)
    (pickValueFromObject : string -> JSRecord -> Outcome JSValue)
    (context : JSRecord) (a : string) (v : JSValue) (s : string)
    (contextValue : JSValue)
    (Hlookup : pickValueFromObject a context = Ok contextValue) :
  let rule op w := {| attribute := a; operator := op; value := w |} in
  (exists b,
      predicate pickValueFromObject context (rule EQ v) = Ok b
      /\ predicate pickValueFromObject context (rule NE v) = Ok (negb b))
  /\ (predicate pickValueFromObject context (rule EQ (JSString s)) = Ok true
      <-> contextValue = JSString s)
  /\ (predicate pickValueFromObject context (rule NE (JSString s)) = Ok true
      <-> contextValue <> JSString s)
  /\ (contextValue = JSUndefined ->
      (predicate pickValueFromObject context (rule EQ v) = Ok true
       <-> v = JSUndefined)).
Proof.
  cbv zeta. cbn [predicate]. rewrite Hlookup. cbn [bind operatorsPredicate].
  split; [|split; [|split]].
  - eexists. split; reflexivity.
  - rewrite <- IsStrictlyEqual_string. split; [|congruence].
    intros H. now injection H.
  - rewrite <- IsStrictlyEqual_string.
    destruct (IsStrictlyEqual _ _); simpl; split;
      congruence || discriminate || auto.
  - intros H. rewrite H. destruct v; simpl; split;
      congruence || discriminate || auto.
Qed.

Lemma equality_operators_witness :
  pickByPath "customer.group" sampleContext = Ok (JSString "vip")
  /\ @predicate strictEngine pickByPath sampleContext
       {| attribute := "customer.group"; operator := EQ;
          value := JSString "vip" |} = Ok true.
Proof.
  split; [reflexivity|].
  apply (equality_operators strictEngine pickByPath sampleContext
           "customer.group" JSNull "vip" (JSString "vip") eq_refl).
  reflexivity.
Defined.

(** ** The ordering operators among themselves *)

Lemma holds_mirror (op : RuleOperator) (c : comparison) :
  isOrdering op = true -> holds (mirror op) (CompOpp c) = holds op c.
Proof. destruct op, c; simpl; intros H; try discriminate; reflexivity. Qed.

Lemma SFcompare_None (x y : number) :
  SFcompare x y = None <-> Num.isNaN x = true \/ Num.isNaN y = true.
Proof.
  destruct x as [sx|sx| |sx mx ex], y as [sy|sy| |sy my ey]; simpl;
    split; try discriminate; auto;
    intros [H|H]; discriminate.
Qed.

Lemma mirror_isOrdering (op : RuleOperator) :
  isOrdering (mirror op) = isOrdering op.
Proof. now destruct op. Qed.

Section MirrorFacts.
Context {engine : Engine}.

Lemma operatorsPredicate_mirror (op : RuleOperator) (x y : JSValue) :
  isOrdering op = true ->
  operatorsPredicate (mirror op) y x = operatorsPredicate op x y.
Proof.
  intros Hop.
  assert (Hop' : isOrdering (mirror op) = true)
    by now rewrite mirror_isOrdering.
  destruct (convertible x) eqn:Hx; [destruct (convertible y) eqn:Hy|].
  - destruct (conversions_complete x Hx)
      as (sx & dx & tx & nx & _ & Hdx & Htx & Hnx).
    destruct (conversions_complete y Hy)
      as (sy & dy & ty & ny & _ & Hdy & Hty & Hny).
    rewrite (ordering_converted op x y dx dy tx ty nx ny) by assumption.
    rewrite (ordering_converted (mirror op) y x dy dx ty tx ny nx)
      by assumption.
    rewrite (andb_comm dy dx), (SFcompare_swap nx ny). f_equal.
    destruct (dx && dy).
    + destruct tx as [t|], ty as [u|]; try reflexivity.
      rewrite (Z.compare_antisym t u). now apply holds_mirror.
    + destruct (SFcompare nx ny) as [c|]; [|reflexivity].
      simpl. now apply holds_mirror.
  - now rewrite !ordering_raises by auto.
  - now rewrite !ordering_raises by auto.
Qed.
End MirrorFacts.

(** X3. Exchanging the operands of an ordering operator gives the
    opposite operator: gt is lt the other way round and gte is lte the
    other way round, on the date path and on the number path alike. *)
Theorem ordering_mirror (engine : Engine) (op : RuleOperator)
    (x y : JSValue) (Hop : isOrdering op = true) :
  operatorsPredicate (mirror op) y x = operatorsPredicate op x y
  /\ operatorsPredicate GT x y = operatorsPredicate LT y x
  /\ operatorsPredicate GTE x y = operatorsPredicate LTE y x.
Proof.
  split; [now apply operatorsPredicate_mirror|]. split.
  - symmetry. exact (operatorsPredicate_mirror GT x y eq_refl).
  - symmetry. exact (operatorsPredicate_mirror GTE x y eq_refl).
Qed.

Lemma ordering_mirror_witness :
  @operatorsPredicate strictEngine LT (JSString "5") (JSString "10")
  = @operatorsPredicate strictEngine GT (JSString "10") (JSString "5").
Proof.
  exact (proj1 (ordering_mirror strictEngine GT
                  (JSString "10") (JSString "5") eq_refl)).
Defined.

(** X4. On two values that convert to a primitive the four ordering
    operators return booleans that fit together: gt implies gte, lt
    implies lte, gt excludes lte and lt excludes gte. When the two
    values are comparable (two dates, or two numbers none of which is
    NaN) gte is the negation of lt and lte the negation of gt; when they
    are not, all four reject, so that lte is then not the negation of
    gt. When one of the two values does not convert, all four raise the
    [TypeError] of the conversion. *)
Theorem ordering_consistency (engine : Engine) (x y : JSValue) :
  (convertible x = true -> convertible y = true ->
   exists gt gte lt lte c : bool,
     operatorsPredicate GT x y = Ok gt
     /\ operatorsPredicate GTE x y = Ok gte
     /\ operatorsPredicate LT x y = Ok lt
     /\ operatorsPredicate LTE x y = Ok lte
     /\ comparable x y = Ok c
     /\ (gt = true -> gte = true)
     /\ (lt = true -> lte = true)
     /\ (gt = true -> lte = false)
     /\ (lt = true -> gte = false)
     /\ (c = true -> gte = negb lt /\ lte = negb gt)
     /\ (c = false ->
         gt = false /\ gte = false /\ lt = false /\ lte = false))
  /\ (convertible x = false \/ convertible y = false ->
      operatorsPredicate GT x y = Throw conversionError
      /\ operatorsPredicate GTE x y = Throw conversionError
      /\ operatorsPredicate LT x y = Throw conversionError
      /\ operatorsPredicate LTE x y = Throw conversionError).
Proof.
  split.
  - intros Hx Hy.
    destruct (conversions_complete x Hx)
      as (sx & dx & tx & nx & _ & Hdx & Htx & Hnx).
    destruct (conversions_complete y Hy)
      as (sy & dy & ty & ny & _ & Hdy & Hty & Hny).
    do 4 eexists.
    exists (if dx && dy
            then negb (DateTime.isNaN tx) && negb (DateTime.isNaN ty)
            else negb (Num.isNaN nx) && negb (Num.isNaN ny)).
    split; [exact (ordering_converted GT x y dx dy tx ty nx ny
                     eq_refl Hdx Hdy Htx Hty Hnx Hny)|].
    split; [exact (ordering_converted GTE x y dx dy tx ty nx ny
                     eq_refl Hdx Hdy Htx Hty Hnx Hny)|].
    split; [exact (ordering_converted LT x y dx dy tx ty nx ny
                     eq_refl Hdx Hdy Htx Hty Hnx Hny)|].
    split; [exact (ordering_converted LTE x y dx dy tx ty nx ny
                     eq_refl Hdx Hdy Htx Hty Hnx Hny)|].
    split.
    { unfold comparable. rewrite Hdx, Hdy, Htx, Hty, Hnx, Hny. cbn [bind].
      destruct (dx && dy); reflexivity. }
    destruct (dx && dy).
    + destruct tx as [t|], ty as [u|];
        simpl; try (repeat split; discriminate || reflexivity).
      destruct (t ?= u)%Z; simpl; repeat split; discriminate || reflexivity.
    + destruct (SFcompare nx ny) as [c|] eqn:Hc.
      * assert (Hn : negb (Num.isNaN nx) && negb (Num.isNaN ny) = true).
        { destruct (Num.isNaN nx) eqn:Hnanx.
          - assert (SFcompare nx ny = None)
              by (apply SFcompare_None; auto). congruence.
          - destruct (Num.isNaN ny) eqn:Hnany; [|reflexivity].
            assert (SFcompare nx ny = None)
              by (apply SFcompare_None; auto). congruence. }
        rewrite Hn. destruct c; simpl;
          repeat split; discriminate || reflexivity.
      * apply SFcompare_None in Hc.
        assert (Hn : negb (Num.isNaN nx) && negb (Num.isNaN ny) = false).
        { destruct Hc as [-> | ->]; [reflexivity|apply andb_false_r]. }
        rewrite Hn. repeat split; discriminate || reflexivity.
  - intros H. repeat split; now apply ordering_raises.
Qed.

Lemma ordering_consistency_witness :
  exists gt gte lt lte c : bool,
    @operatorsPredicate strictEngine GT (JSString "10") (JSNumber (Num.of_Z 5))
    = Ok gt
    /\ @operatorsPredicate strictEngine GTE (JSString "10")
         (JSNumber (Num.of_Z 5)) = Ok gte
    /\ @operatorsPredicate strictEngine LT (JSString "10")
         (JSNumber (Num.of_Z 5)) = Ok lt
    /\ @operatorsPredicate strictEngine LTE (JSString "10")
         (JSNumber (Num.of_Z 5)) = Ok lte
    /\ @comparable strictEngine (JSString "10") (JSNumber (Num.of_Z 5)) = Ok c
    /\ gte = negb lt /\ lte = negb gt.
Proof.
  destruct (proj1 (ordering_consistency strictEngine
                     (JSString "10") (JSNumber (Num.of_Z 5)))
              eq_refl eq_refl)
    as (gt & gte & lt & lte & c & Hgt & Hgte & Hlt & Hlte & Hc & _ & _ & _ & _
        & Htrue & _).
  exists gt, gte, lt, lte, c.
  repeat (split; [assumption|]).
  apply Htrue. vm_compute in Hc. now injection Hc as <-.
Defined.

(** X5. On an engine that does not read the text "undefined" as a date,
    a rule with an ordering operator rejects a context in which its
    attribute resolves to undefined, whatever rule value converts to a
    primitive, as the strings, [null] and the arrays of strings of the
    type [Rule] do: the missing value is coerced to NaN. With a rule
    value that does not convert, the rule raises the [TypeError] of the
    conversion. *)
Theorem ordering_missing_attribute (engine : Engine)
    (pickValueFromObject : string -> JSRecord -> Outcome JSValue)
    (context : JSRecord) (a : string) (op : RuleOperator) (v : JSValue)
    (options : option Options)
    (Hop : isOrdering op = true)
    (Hengine : DateParseFallback "undefined" = None)
    (Hmissing : pickValueFromObject a context = Ok JSUndefined) :
  let rule := {| attribute := a; operator := op; value := v |} in
  (convertible v = true ->
   predicate pickValueFromObject context rule = Ok false
   /\ isContextValid pickValueFromObject context [rule] options = Ok false)
  /\ (convertible v = false ->
      predicate pickValueFromObject context rule = Throw conversionError
      /\ isContextValid pickValueFromObject context [rule] options
         = Throw conversionError)
  /\ (forall s, convertible (JSString s) = true)
  /\ convertible JSNull = true
  /\ (forall loc elems,
        (forall e, In e elems -> exists s, e = JSString s) ->
        convertible (JSArray loc elems) = true).
Proof.
  cbv zeta. rewrite isContextValid_singleton.
  rewrite (predicate_lookup pickValueFromObject context
             {| attribute := a; operator := op; value := v |}
             JSUndefined Hmissing).
  cbn [operator value].
  split; [|split; [|split; [|split]]].
  - intros Hv.
    destruct (conversions_complete v Hv)
      as (sv & dv & tv & nv & _ & Hdv & Htv & Hnv).
    assert (Hd : isDate JSUndefined = Ok false).
    { unfold isDate, DateTime.Date_parse, DateTime.parse. simpl.
      change (DateTime.parseDateOnly "undefined") with (@None Z).
      now rewrite Hengine. }
    rewrite (ordering_converted op JSUndefined v false dv
               (DateTime.TimeClip Num.NaN) tv Num.NaN nv Hop Hd Hdv
               eq_refl Htv eq_refl Hnv).
    split; reflexivity.
  - intros Hv. rewrite ordering_raises by auto. split; reflexivity.
  - reflexivity.
  - reflexivity.
  - intros loc elems H. induction elems as [|e l IH]; [reflexivity|].
    rewrite convertible_cons, IH by (intros x Hx; apply H; now right).
    destruct (H e (or_introl eq_refl)) as [s ->]. reflexivity.
Qed.

Lemma ordering_missing_attribute_witness :
  @DateParseFallback strictEngine "undefined" = None
  /\ pickByPath "customer.age" sampleContext = Ok JSUndefined
  /\ @isContextValid strictEngine pickByPath sampleContext
       [ {| attribute := "customer.age"; operator := LTE;
            value := JSString "18" |} ] None = Ok false.
Proof.
  split; [reflexivity|]. split; [reflexivity|].
  apply (ordering_missing_attribute strictEngine pickByPath sampleContext
           "customer.age" LTE (JSString "18") None eq_refl eq_refl eq_refl).
  reflexivity.
Defined.

(** ** Rule lists put together *)

Section ConcatFacts.
Context {A : Type}.
Variable callback : A -> Outcome bool.

Lemma every_run_app (l1 l2 : list A) :
  fst (every_run callback (l1 ++ l2))
  = (b <- fst (every_run callback l1) ;;
     if b then fst (every_run callback l2) else Ok false).
Proof.
  induction l1 as [|x l1 IH]; simpl.
  - now destruct (every_run callback l2).
  - destruct (callback x) as [[|]|e]; simpl; try reflexivity.
    destruct (every_run callback (l1 ++ l2)) as [r seen].
    destruct (every_run callback l1) as [r1 seen1]. exact IH.
Qed.

Lemma some_run_app (l1 l2 : list A) :
  fst (some_run callback (l1 ++ l2))
  = (b <- fst (some_run callback l1) ;;
     if b then Ok true else fst (some_run callback l2)).
Proof.
  induction l1 as [|x l1 IH]; simpl.
  - now destruct (some_run callback l2).
  - destruct (callback x) as [[|]|e]; simpl; try reflexivity.
    destruct (some_run callback (l1 ++ l2)) as [r seen].
    destruct (some_run callback l1) as [r1 seen1]. exact IH.
Qed.

Lemma every_run_forallb (l : list A) :
  (forall x, In x l -> completes (callback x) = true) ->
  fst (every_run callback l) = Ok (forallb (passes callback) l).
Proof.
  induction l as [|x l IH]; simpl; intros H; [reflexivity|].
  pose proof (H x (or_introl eq_refl)) as Hx. unfold passes at 1.
  destruct (callback x) as [[|]|e]; simpl in *; try discriminate.
  - destruct (every_run callback l) as [r seen]. simpl in *.
    apply IH. intros y Hy. apply H. now right.
  - reflexivity.
Qed.

Lemma some_run_existsb (l : list A) :
  (forall x, In x l -> completes (callback x) = true) ->
  fst (some_run callback l) = Ok (existsb (passes callback) l).
Proof.
  induction l as [|x l IH]; simpl; intros H; [reflexivity|].
  pose proof (H x (or_introl eq_refl)) as Hx. unfold passes at 1.
  destruct (callback x) as [[|]|e]; simpl in *; try discriminate.
  - reflexivity.
  - destruct (some_run callback l) as [r seen]. simpl in *.
    apply IH. intros y Hy. apply H. now right.
Qed.
End ConcatFacts.

Lemma forallb_same_elements {A} (f : A -> bool) (l l' : list A) :
  (forall x, In x l <-> In x l') -> forallb f l = forallb f l'.
Proof.
  intros H. apply eq_true_iff_eq. rewrite !forallb_forall.
  split; intros Hf x Hx; apply Hf, H, Hx.
Qed.

Lemma existsb_same_elements {A} (f : A -> bool) (l l' : list A) :
  (forall x, In x l <-> In x l') -> existsb f l = existsb f l'.
Proof.
  intros H. apply eq_true_iff_eq. rewrite !existsb_exists.
  split; intros (x & Hx & Hf); exists x; split; auto; apply H, Hx.
Qed.

(** X6. Evaluating two rule lists put end to end is evaluating the first
    and then, if that leaves the result open, the second: by default the
    result of the first when that is false or an exception, else the
    result of the second; under [someAreValid] the result of the first
    when that is true or an exception, else the result of the second. *)
Theorem evaluation_of_concatenation (engine : Engine)
    (pickValueFromObject : string -> JSRecord -> Outcome JSValue)
    (context : JSRecord) (l1 l2 : list Rule) :
  let evaluate := isContextValid pickValueFromObject context in
  evaluate (l1 ++ l2) None
  = (b <- evaluate l1 None ;; if b then evaluate l2 None else Ok false)
  /\ evaluate (l1 ++ l2) (withSomeAreValid true)
     = (b <- evaluate l1 (withSomeAreValid true) ;;
        if b then Ok true else evaluate l2 (withSomeAreValid true)).
Proof.
  cbv zeta. split.
  - apply every_run_app.
  - apply some_run_app.
Qed.

(** X7. On rule lists none of whose rules raises on the context, the
    result depends only on which rules are present: two lists with the
    same rules, in any order and with any repetitions, evaluate alike in
    both modes. A rule that raises makes the order count: by default it
    is not reached after a rule that rejects, and before that rule the
    evaluation raises. *)
Theorem evaluation_order_irrelevant (engine : Engine)
    (pickValueFromObject : string -> JSRecord -> Outcome JSValue)
    (context : JSRecord) (rules rules' : list Rule)
    (options : option Options)
    (Hsame : forall r, In r rules <-> In r rules')
    (Hsound : forall r, In r rules ->
                completes (predicate pickValueFromObject context r) = true) :
  isContextValid pickValueFromObject context rules options
  = isContextValid pickValueFromObject context rules' options
  /\ (forall rejecting raising e,
        predicate pickValueFromObject context rejecting = Ok false ->
        predicate pickValueFromObject context raising = Throw e ->
        isContextValid pickValueFromObject context [rejecting; raising] None
        = Ok false
        /\ isContextValid pickValueFromObject context [raising; rejecting] None
           = Throw e).
Proof.
  split.
  - assert (Hc' : forall r, In r rules' ->
               completes (predicate pickValueFromObject context r) = true).
    { intros r Hr. apply Hsound, Hsame, Hr. }
    unfold isContextValid, isContextValid_run.
    destruct options as [[[|]]|]; simpl.
    + rewrite !some_run_existsb by assumption.
      f_equal. now apply existsb_same_elements.
    + rewrite !every_run_forallb by assumption.
      f_equal. now apply forallb_same_elements.
    + rewrite !every_run_forallb by assumption.
      f_equal. now apply forallb_same_elements.
  - intros rejecting raising e Hrej Hraise.
    unfold isContextValid, isContextValid_run. cbn -[predicate].
    rewrite Hrej, Hraise. split; reflexivity.
Qed.

Lemma evaluation_order_irrelevant_witness :
  @isContextValid strictEngine pickByPath sampleContext
    [ {| attribute := "a"; operator := EQ; value := JSString "y" |};
      {| attribute := "customer.group"; operator := IN;
         value := JSArray 2%positive [JSString "vip"] |} ]
    (withSomeAreValid true)
  = @isContextValid strictEngine pickByPath sampleContext
      [ {| attribute := "customer.group"; operator := IN;
           value := JSArray 2%positive [JSString "vip"] |};
        {| attribute := "a"; operator := EQ; value := JSString "y" |};
        {| attribute := "customer.group"; operator := IN;
           value := JSArray 2%positive [JSString "vip"] |} ]
      (withSomeAreValid true)
  /\ @isContextValid strictEngine pickByPath shadowingContext
       [ {| attribute := "b"; operator := EQ; value := JSString "x" |};
         {| attribute := "a"; operator := GT; value := JSString "5" |} ]
       None = Ok false
  /\ @isContextValid strictEngine pickByPath shadowingContext
       [ {| attribute := "a"; operator := GT; value := JSString "5" |};
         {| attribute := "b"; operator := EQ; value := JSString "x" |} ]
       None = Throw conversionError.
Proof.
  destruct (evaluation_order_irrelevant strictEngine pickByPath sampleContext
    [ {| attribute := "a"; operator := EQ; value := JSString "y" |};
      {| attribute := "customer.group"; operator := IN;
         value := JSArray 2%positive [JSString "vip"] |} ]
    [ {| attribute := "customer.group"; operator := IN;
         value := JSArray 2%positive [JSString "vip"] |};
      {| attribute := "a"; operator := EQ; value := JSString "y" |};
      {| attribute := "customer.group"; operator := IN;
         value := JSArray 2%positive [JSString "vip"] |} ]
    (withSomeAreValid true)) as [Heq _].
  - intros r. simpl. tauto.
  - intros r [<-|[<-|[]]]; reflexivity.
  - split; [exact Heq|].
    destruct (evaluation_order_irrelevant strictEngine pickByPath
                shadowingContext [] [] None) as [_ Horder].
    + intros r. tauto.
    + intros r [].
    + apply (Horder
               {| attribute := "b"; operator := EQ; value := JSString "x" |}
               {| attribute := "a"; operator := GT; value := JSString "5" |}
               conversionError eq_refl eq_refl).
Defined.

(** ** Complementary operators *)

Section ComplementFacts.
Context {engine : Engine}.
Variable pickValueFromObject : string -> JSRecord -> Outcome JSValue.

Lemma predicate_complement (context : JSRecord) (r : Rule) :
  isOrdering (operator r) = false ->
  predicate pickValueFromObject context (complementRule r)
  = omap negb (predicate pickValueFromObject context r).
Proof.
  destruct r as [a op v]. unfold complementRule, omap.
  cbn [predicate attribute operator value].
  destruct (pickValueFromObject a context) as [cv|e]; [|reflexivity].
  cbn [bind].
  destruct op; simpl; try discriminate; intros _; try reflexivity.
  - destruct (includes v cv); simpl; [|reflexivity].
    now rewrite negb_involutive.
  - now rewrite negb_involutive.
Qed.

Lemma some_run_complement (context : JSRecord) (rules : list Rule) :
  (forall r, In r rules -> isOrdering (operator r) = false) ->
  fst (some_run (predicate pickValueFromObject context)
         (map complementRule rules))
  = omap negb (fst (every_run (predicate pickValueFromObject context) rules)).
Proof.
  induction rules as [|r rules IH]; intros H; [reflexivity|].
  cbn [map some_run every_run].
  rewrite (predicate_complement context r (H r (or_introl eq_refl))).
  destruct (predicate pickValueFromObject context r) as [[|]|e];
    try reflexivity.
  cbn [omap bind negb].
  destruct (some_run _ (map complementRule rules)) as [r1 seen1].
  destruct (every_run _ rules) as [r2 seen2]. simpl in *.
  apply IH. intros x Hx. apply H. now right.
Qed.

Lemma every_run_complement (context : JSRecord) (rules : list Rule) :
  (forall r, In r rules -> isOrdering (operator r) = false) ->
  fst (every_run (predicate pickValueFromObject context)
         (map complementRule rules))
  = omap negb (fst (some_run (predicate pickValueFromObject context) rules)).
Proof.
  induction rules as [|r rules IH]; intros H; [reflexivity|].
  cbn [map some_run every_run].
  rewrite (predicate_complement context r (H r (or_introl eq_refl))).
  destruct (predicate pickValueFromObject context r) as [[|]|e];
    try reflexivity.
  cbn [omap bind negb].
  destruct (every_run _ (map complementRule rules)) as [r1 seen1].
  destruct (some_run _ rules) as [r2 seen2]. simpl in *.
  apply IH. intros x Hx. apply H. now right.
Qed.
End ComplementFacts.

(** X8. For rules with the operators in, nin, eq and ne, replacing each
    operator by its complement (in with nin, eq with ne) and switching
    the mode negates the result: the complemented list under
    [someAreValid] returns the negation of the original list by default,
    and the other way round; an exception of the one is the same
    exception of the other. *)
Theorem complement_duality (engine : Engine)
    (pickValueFromObject : string -> JSRecord -> Outcome JSValue)
    (context : JSRecord) (rules : list Rule)
    (Hops : forall r, In r rules -> isOrdering (operator r) = false) :
  let evaluate := isContextValid pickValueFromObject context in
  evaluate (map complementRule rules) (withSomeAreValid true)
  = omap negb (evaluate rules None)
  /\ evaluate (map complementRule rules) None
     = omap negb (evaluate rules (withSomeAreValid true)).
Proof.
  cbv zeta. split.
  - now apply some_run_complement.
  - now apply every_run_complement.
Qed.

Lemma complement_duality_witness :
  @isContextValid strictEngine pickByPath sampleContext
    [ {| attribute := "a"; operator := NE; value := JSString "x" |};
      {| attribute := "customer.group"; operator := NIN;
         value := JSArray 2%positive [JSString "vip"] |} ]
    (withSomeAreValid true)
  = omap negb
      (@isContextValid strictEngine pickByPath sampleContext
         [ {| attribute := "a"; operator := EQ; value := JSString "x" |};
           {| attribute := "customer.group"; operator := IN;
              value := JSArray 2%positive [JSString "vip"] |} ]
         None).
Proof.
  apply (complement_duality strictEngine pickByPath sampleContext
           [ {| attribute := "a"; operator := EQ; value := JSString "x" |};
             {| attribute := "customer.group"; operator := IN;
                value := JSArray 2%positive [JSString "vip"] |} ]).
  intros r [<-|[<-|[]]]; reflexivity.
Defined.

(** ** Membership as a list of equalities *)

Lemma Num_equal_sym (x y : number) : Num.equal x y = Num.equal y x.
Proof.
  unfold Num.equal, SFeqb. rewrite (SFcompare_swap y x).
  destruct (SFcompare y x) as [[]|]; reflexivity.
Qed.

Lemma IsStrictlyEqual_sym (x y : JSValue) :
  IsStrictlyEqual x y = IsStrictlyEqual y x.
Proof.
  destruct x, y; simpl; try reflexivity.
  - now destruct b, b0.
  - apply Num_equal_sym.
  - apply String.eqb_sym.
  - apply Pos.eqb_sym.
  - apply Pos.eqb_sym.
Qed.

Lemma SameValueZero_strict (x y : JSValue) :
  x <> JSNumber Num.NaN -> SameValueZero x y = IsStrictlyEqual y x.
Proof.
  intros H. rewrite (IsStrictlyEqual_sym y x).
  destruct x, y; simpl; try reflexivity.
  unfold Num.sameValueZero.
  destruct n; simpl; try reflexivity. now elim H.
Qed.

(** X9. A rule with operator in and an array none of whose elements is
    NaN evaluates as the list of eq rules, one for each element, under
    [someAreValid]; the rule with operator nin evaluates as the list of
    ne rules under the default. *)
Theorem membership_as_equalities (engine : Engine)
    (pickValueFromObject : string -> JSRecord -> Outcome JSValue)
    (context : JSRecord) (a : string) (loc : positive)
    (elems : list JSValue) (contextValue : JSValue)
    (Hlookup : pickValueFromObject a context = Ok contextValue)
    (Hnan : forall e, In e elems -> e <> JSNumber Num.NaN) :
  let rule op v := {| attribute := a; operator := op; value := v |} in
  predicate pickValueFromObject context (rule IN (JSArray loc elems))
  = isContextValid pickValueFromObject context (map (rule EQ) elems)
      (withSomeAreValid true)
  /\ predicate pickValueFromObject context (rule NIN (JSArray loc elems))
     = isContextValid pickValueFromObject context (map (rule NE) elems) None.
Proof.
  cbv zeta. unfold isContextValid, isContextValid_run.
  cbn [predicate withSomeAreValid fst]. rewrite Hlookup.
  cbn [bind operatorsPredicate includes]. simpl fst.
  unfold Array_includes.
  induction elems as [|e elems IH]; [split; reflexivity|].
  destruct IH as [IHin IHnin]; [intros x Hx; apply Hnan; now right|].
  cbn [map some_run every_run existsb predicate].
  rewrite Hlookup. cbn [bind operatorsPredicate].
  rewrite (SameValueZero_strict e _ (Hnan e (or_introl eq_refl))).
  destruct (IsStrictlyEqual contextValue e); simpl.
  - split; reflexivity.
  - destruct (some_run _ _) as [r1 s1]. destruct (every_run _ _) as [r2 s2].
    simpl in *. split; assumption.
Qed.

Lemma membership_as_equalities_witness :
  pickByPath "customer.group" sampleContext = Ok (JSString "vip")
  /\ @predicate strictEngine pickByPath sampleContext
       {| attribute := "customer.group"; operator := IN;
          value := JSArray 2%positive [JSString "gold"; JSString "vip"] |}
     = @isContextValid strictEngine pickByPath sampleContext
         [ {| attribute := "customer.group"; operator := EQ;
              value := JSString "gold" |};
           {| attribute := "customer.group"; operator := EQ;
              value := JSString "vip" |} ]
         (withSomeAreValid true).
Proof.
  split; [reflexivity|].
  apply (membership_as_equalities strictEngine pickByPath sampleContext
           "customer.group" 2%positive [JSString "gold"; JSString "vip"]
           (JSString "vip") eq_refl).
  intros e [<-|[<-|[]]]; discriminate.
Defined.

(** ** A string as the value of a membership operator *)

Lemma Text_includes_occurs (hay needle : string) :
  Text.includes hay needle = true
  <-> exists m, substring m (String.length needle) hay = needle.
Proof.
  unfold Text.includes. split.
  - destruct (index 0 needle hay) as [m|] eqn:H; [|discriminate].
    intros _. exists m. exact (index_correct1 _ _ _ _ H).
  - intros [m Hm]. destruct (index 0 needle hay) as [k|] eqn:H;
      [reflexivity|exfalso].
    destruct needle as [|c needle].
    + apply index_correct4 in H. inversion H.
    + apply (index_correct3 0 m _ _ H); [discriminate|apply Nat.le_0_l|exact Hm].
Qed.

(** X10. The type [Rule] lets the operator in come with a single string
    as value, and evaluation then searches the text of the context value
    inside that string. A string context value is accepted iff it occurs
    somewhere in the rule value, so also when it is only a part of it or
    empty; a missing attribute (undefined) is accepted iff the rule value
    contains the text "undefined"; any context value that converts to a
    primitive is accepted iff the text it converts to occurs in the rule
    value. The operator nin gives the negation. A context value that
    does not convert makes both operators raise the [TypeError] of the
    conversion. Such a descriptor never passes [validateRule]. *)
Theorem membership_in_string (engine : Engine)
    (pickValueFromObject : string -> JSRecord -> Outcome JSValue)
    (context : JSRecord) (a : string) (s : string)
    (contextValue : JSValue)
    (Hlookup : pickValueFromObject a context = Ok contextValue) :
  let rule op := {| attribute := a; operator := op; value := JSString s |} in
  (forall c, contextValue = JSString c ->
     exists b,
       predicate pickValueFromObject context (rule IN) = Ok b
       /\ predicate pickValueFromObject context (rule NIN) = Ok (negb b)
       /\ (b = true <-> exists m, substring m (String.length c) s = c)
       /\ (c = "" -> b = true))
  /\ (contextValue = JSUndefined ->
      exists b,
        predicate pickValueFromObject context (rule IN) = Ok b
        /\ predicate pickValueFromObject context (rule NIN) = Ok (negb b)
        /\ (b = true <-> exists m, substring m 9 s = "undefined"))
  /\ (forall text, ToString contextValue = Ok text ->
      exists b,
        predicate pickValueFromObject context (rule IN) = Ok b
        /\ predicate pickValueFromObject context (rule NIN) = Ok (negb b)
        /\ (b = true <-> exists m, substring m (String.length text) s = text))
  /\ (convertible contextValue = true ->
      exists text, ToString contextValue = Ok text)
  /\ (convertible contextValue = false ->
      predicate pickValueFromObject context (rule IN) = Throw conversionError
      /\ predicate pickValueFromObject context (rule NIN)
         = Throw conversionError)
  /\ (forall attribute op,
        op = "in" \/ op = "nin" ->
        exists message,
          validateRule (descriptor attribute (JSString op) (JSString s))
          = Throw (MedusaError INVALID_DATA message)).
Proof.
  cbv zeta.
  assert (Htext : forall text, ToString contextValue = Ok text ->
            predicate pickValueFromObject context
              {| attribute := a; operator := IN; value := JSString s |}
            = Ok (Text.includes s text)
            /\ predicate pickValueFromObject context
                 {| attribute := a; operator := NIN; value := JSString s |}
               = Ok (negb (Text.includes s text))).
  { intros text Ht. cbn [predicate]. rewrite Hlookup.
    cbn [bind operatorsPredicate includes]. rewrite Ht. split; reflexivity. }
  split; [|split; [|split; [|split; [|split]]]].
  - intros c ->. destruct (Htext c eq_refl) as [Hin Hnin].
    exists (Text.includes s c). split; [exact Hin|]. split; [exact Hnin|].
    split; [apply Text_includes_occurs|].
    intros ->. apply Text_includes_occurs. exists 0%nat. now destruct s.
  - intros ->. destruct (Htext "undefined" eq_refl) as [Hin Hnin].
    exists (Text.includes s "undefined").
    split; [exact Hin|]. split; [exact Hnin|].
    apply (Text_includes_occurs s "undefined").
  - intros text Ht. destruct (Htext text Ht) as [Hin Hnin].
    exists (Text.includes s text).
    split; [exact Hin|]. split; [exact Hnin|].
    apply Text_includes_occurs.
  - intros Hc.
    destruct (conversions_complete contextValue Hc) as (text & _ & _ & _ & Ht & _).
    now exists text.
  - intros Hc.
    destruct (conversions_raise contextValue Hc) as (Ht & _).
    cbn [predicate]. rewrite Hlookup.
    cbn [bind operatorsPredicate includes]. rewrite Ht. split; reflexivity.
  - intros attribute op Hop.
    destruct (validateRule_outcomes
                (descriptor attribute (JSString op) (JSString s)))
      as [H|H]; [exfalso|exact H].
    apply validateRule_accepts in H.
    destruct H as (x & o & _ & _ & Ho & Hv).
    change (Get (descriptor attribute (JSString op) (JSString s)) "operator")
      with (JSString op) in Ho.
    change (Get (descriptor attribute (JSString op) (JSString s)) "value")
      with (JSString s) in Hv.
    injection Ho as Ho.
    destruct Hop as [-> | ->]; destruct o; try discriminate Ho;
      discriminate Hv.
Qed.

Lemma membership_in_string_witness :
  pickByPath "customer.group" sampleContext = Ok (JSString "vip")
  /\ @predicate strictEngine pickByPath sampleContext
       {| attribute := "customer.group"; operator := IN;
          value := JSString "vip,gold" |} = Ok true
  /\ pickByPath "a" shadowingContext
     = Ok (JSObject 3%positive [("toString", JSString "x")])
  /\ @predicate strictEngine pickByPath shadowingContext
       {| attribute := "a"; operator := IN; value := JSString "xyz" |}
     = Throw conversionError.
Proof.
  split; [reflexivity|].
  destruct (membership_in_string strictEngine pickByPath sampleContext
              "customer.group" "vip,gold" (JSString "vip") eq_refl)
    as (Hstring & _).
  destruct (Hstring "vip" eq_refl) as (b & Hin & _ & Hb & _).
  assert (Htrue : b = true) by (apply Hb; exists 0%nat; reflexivity).
  rewrite Htrue in Hin. split; [exact Hin|].
  split; [reflexivity|].
  destruct (membership_in_string strictEngine pickByPath shadowingContext
              "a" "xyz" (JSObject 3%positive [("toString", JSString "x")])
              eq_refl)
    as (_ & _ & _ & _ & Hraise & _).
  exact (proj1 (Hraise eq_refl)).
Defined.

(** ** Outcomes of validating a list *)

(** X11. [validateRules] returns [true] or raises an [INVALID_DATA]
    error: it never returns [false] and raises nothing else. The empty
    list is accepted. Two lists put end to end are accepted iff both
    are; an error of the first is the error of the whole, and when the
    first is accepted the whole does what the second does. *)
Theorem validateRules_outcomes (rules l1 l2 : list JSRecord) :
  (validateRules rules = Ok true
   \/ exists message,
        validateRules rules = Throw (MedusaError INVALID_DATA message))
  /\ validateRules [] = Ok true
  /\ (validateRules (l1 ++ l2) = Ok true
      <-> validateRules l1 = Ok true /\ validateRules l2 = Ok true)
  /\ (forall e, validateRules l1 = Throw e -> validateRules (l1 ++ l2) = Throw e)
  /\ (validateRules l1 = Ok true ->
      validateRules (l1 ++ l2) = validateRules l2).
Proof.
  split; [|split; [reflexivity|split; [|split]]].
  - destruct (validateRules_cases rules)
      as [Hall|(k1 & r & k2 & e & -> & H1 & Hr)].
    + left. now apply validateRules_true.
    + right. unfold validateRules.
      rewrite (validateRules_run_stops k1 k2 r e H1 Hr). simpl.
      destruct (validateRule_outcomes r) as [H|[m H]]; [congruence|].
      exists m. congruence.
  - rewrite !validateRules_true. split.
    + intros H. split; intros r Hr; apply H, in_or_app; auto.
    + intros [Ha Hb] r Hr. apply in_app_or in Hr. destruct Hr; auto.
  - intros e H.
    destruct (validateRules_cases l1)
      as [Hall|(k1 & r & k2 & e' & -> & H1 & Hr)].
    + apply validateRules_true in Hall. congruence.
    + unfold validateRules in *.
      rewrite (validateRules_run_stops k1 k2 r e' H1 Hr) in H.
      rewrite <- app_assoc. simpl.
      now rewrite (validateRules_run_stops k1 (k2 ++ l2) r e' H1 Hr).
  - intros H. pose proof (proj1 (validateRules_true l1) H) as Hall.
    destruct (validateRules_cases l2)
      as [Hall2|(k1 & r & k2 & e & -> & H1 & Hr)].
    + rewrite (proj2 (validateRules_true l2) Hall2).
      apply validateRules_true. intros r Hr.
      apply in_app_or in Hr. destruct Hr; auto.
    + unfold validateRules.
      rewrite (validateRules_run_stops k1 k2 r e H1 Hr).
      rewrite app_assoc.
      rewrite (validateRules_run_stops (l1 ++ k1) k2 r e); [reflexivity| |exact Hr].
      intros x Hx. apply in_app_or in Hx. destruct Hx; auto.
Qed.

(** ** Dates in the date-only form *)

Section CalendarFacts.
Import DateTime.
Local Open Scope Z_scope.

Lemma DaysInYear_cases (y : Z) : DaysInYear y = 365 \/ DaysInYear y = 366.
Proof.
  unfold DaysInYear.
  destruct (y mod 4 =? 0), (y mod 100 =? 0), (y mod 400 =? 0); simpl; auto.
Qed.

Lemma DayFromYear_next (y : Z) :
  DayFromYear (y + 1) = DayFromYear y + DaysInYear y.
Proof.
  unfold DayFromYear, DaysInYear.
  replace (y + 1 - 1969) with (y - 1969 + 1) by lia.
  replace (y + 1 - 1901) with (y - 1901 + 1) by lia.
  replace (y + 1 - 1601) with (y - 1601 + 1) by lia.
  replace (y + 1 - 1970) with (y - 1970 + 1) by lia.
  assert (E4 : y mod 4 = (y - 1969 + 1) mod 4).
  { replace y with ((y - 1969 + 1) + 492 * 4) at 1 by lia.
    apply Z.mod_add. lia. }
  assert (E100 : y mod 100 = (y - 1901 + 1) mod 100).
  { replace y with ((y - 1901 + 1) + 19 * 100) at 1 by lia.
    apply Z.mod_add. lia. }
  assert (E400 : y mod 400 = (y - 1601 + 1) mod 400).
  { replace y with ((y - 1601 + 1) + 4 * 400) at 1 by lia.
    apply Z.mod_add. lia. }
  rewrite E4, E100, E400.
  set (a := y - 1969) in *. set (b := y - 1901) in *.
  set (c := y - 1601) in *.
  assert (Hb : b = a + 68) by (unfold a, b; lia).
  assert (Hc : c = a + 368) by (unfold a, c; lia).
  destruct (Z.eqb_spec ((a + 1) mod 4) 0),
    (Z.eqb_spec ((b + 1) mod 100) 0),
    (Z.eqb_spec ((c + 1) mod 400) 0); cbn [negb];
    Z.to_euclidean_division_equations; lia.
Qed.

Lemma DayFromYear_mono (y y' : Z) :
  y <= y' -> DayFromYear y <= DayFromYear y'.
Proof.
  intros H. unfold DayFromYear.
  Z.to_euclidean_division_equations. lia.
Qed.

Ltac months Hy :=
  repeat match goal with
  | |- context [Z.to_nat (Zpos ?p)] =>
      let n := eval vm_compute in (Z.to_nat (Zpos p)) in
      change (Z.to_nat (Zpos p)) with n
  end;
  cbn [daysBefore Z.of_nat Pos.of_succ_nat Pos.succ];
  unfold DaysInMonth in *; rewrite ?Hy in *;
  cbn [Z.eqb Pos.eqb orb] in *.

Lemma month_cases (m : Z) :
  1 <= m <= 12 ->
  m = 1 \/ m = 2 \/ m = 3 \/ m = 4 \/ m = 5 \/ m = 6 \/ m = 7 \/ m = 8
  \/ m = 9 \/ m = 10 \/ m = 11 \/ m = 12.
Proof. lia. Qed.

Lemma validDate_bounds (y m d : Z) :
  validDate y m d = true ->
  0 <= y <= 9999 /\ 1 <= m <= 12 /\ 1 <= d <= DaysInMonth y m.
Proof. unfold validDate. lia. Qed.

Lemma utcMidnight_valid (y m d : Z) :
  validDate y m d = true ->
  utcMidnight y m d = Some ((DayFromYear y + dayWithinYear y m d) * msPerDay).
Proof.
  intros H. apply validDate_bounds in H. unfold utcMidnight, dayWithinYear.
  replace ((1 <=? m) && (m <=? 12) && (1 <=? d) && (d <=? DaysInMonth y m))
    with true by lia.
  f_equal. lia.
Qed.

Lemma dayWithinYear_bounds (y m d : Z) :
  validDate y m d = true -> 0 <= dayWithinYear y m d < DaysInYear y.
Proof.
  intros H. apply validDate_bounds in H. destruct H as (_ & Hm & Hd).
  unfold dayWithinYear.
  destruct (DaysInYear_cases y) as [Hy|Hy];
    destruct (month_cases m Hm) as [->|[->|[->|[->|[->|[->|[->|[->|[->|[->|[->| ->]]]]]]]]]]];
    months Hy; lia.
Qed.

Lemma dayWithinYear_order (y m d m' d' : Z) :
  validDate y m d = true -> validDate y m' d' = true ->
  (dayWithinYear y m d ?= dayWithinYear y m' d')
  = match m ?= m' with
    | Eq => d ?= d'
    | c => c
    end.
Proof.
  intros H H'. apply validDate_bounds in H, H'.
  destruct H as (_ & Hm & Hd), H' as (_ & Hm' & Hd').
  unfold dayWithinYear.
  destruct (DaysInYear_cases y) as [Hy|Hy];
    destruct (month_cases m Hm) as [->|[->|[->|[->|[->|[->|[->|[->|[->|[->|[->| ->]]]]]]]]]]];
    destruct (month_cases m' Hm') as [->|[->|[->|[->|[->|[->|[->|[->|[->|[->|[->| ->]]]]]]]]]]];
    months Hy; cbn [Z.compare Pos.compare Pos.compare_cont];
    try (apply Z.compare_lt_iff; lia);
    try (apply Z.compare_gt_iff; lia);
    destruct (Z.compare_spec d d') as [E|E|E];
    first [apply Z.compare_eq_iff; lia | apply Z.compare_lt_iff; lia
          | apply Z.compare_gt_iff; lia].
Qed.

(** Later days of the calendar have greater time values. *)
Lemma utcMidnight_order (y m d y' m' d' t u : Z) :
  validDate y m d = true -> validDate y' m' d' = true ->
  utcMidnight y m d = Some t -> utcMidnight y' m' d' = Some u ->
  (t ?= u) = compareCalendar y m d y' m' d'.
Proof.
  intros H H' Ht Hu.
  rewrite (utcMidnight_valid _ _ _ H) in Ht.
  rewrite (utcMidnight_valid _ _ _ H') in Hu.
  injection Ht as <-. injection Hu as <-.
  pose proof (dayWithinYear_bounds _ _ _ H) as B.
  pose proof (dayWithinYear_bounds _ _ _ H') as B'.
  unfold compareCalendar, msPerDay.
  destruct (Z.compare_spec y y') as [E|E|E].
  - subst y'. rewrite <- (dayWithinYear_order y m d m' d' H H').
    destruct (Z.compare_spec (dayWithinYear y m d) (dayWithinYear y m' d'))
      as [F|F|F];
      first [apply Z.compare_eq_iff; lia | apply Z.compare_lt_iff; lia
            | apply Z.compare_gt_iff; lia].
  - apply Z.compare_lt_iff.
    pose proof (DayFromYear_next y) as N.
    pose proof (DayFromYear_mono (y + 1) y' ltac:(lia)) as M. lia.
  - apply Z.compare_gt_iff.
    pose proof (DayFromYear_next y') as N.
    pose proof (DayFromYear_mono (y' + 1) y ltac:(lia)) as M. lia.
Qed.

Lemma radixDigit_digitChar (k : Z) :
  0 <= k <= 9 -> Text.radixDigit 10 (digitChar k) = Some k.
Proof.
  intros H.
  assert (C : k = 0 \/ k = 1 \/ k = 2 \/ k = 3 \/ k = 4 \/ k = 5 \/ k = 6
              \/ k = 7 \/ k = 8 \/ k = 9) by lia.
  destruct C as [->|[->|[->|[->|[->|[->|[->|[->|[->| ->]]]]]]]]];
    reflexivity.
Qed.

Lemma decimal_two (a b : Z) :
  0 <= a <= 9 -> 0 <= b <= 9 ->
  decimal [digitChar a; digitChar b] = Some (10 * a + b).
Proof.
  intros Ha Hb. unfold decimal. cbn [Text.takeDigits].
  rewrite (radixDigit_digitChar a Ha), (radixDigit_digitChar b Hb).
  f_equal; lia.
Qed.

Lemma decimal_four (a b c d : Z) :
  0 <= a <= 9 -> 0 <= b <= 9 -> 0 <= c <= 9 -> 0 <= d <= 9 ->
  decimal [digitChar a; digitChar b; digitChar c; digitChar d]
  = Some (1000 * a + 100 * b + 10 * c + d).
Proof.
  intros Ha Hb Hc Hd. unfold decimal. cbn [Text.takeDigits].
  rewrite (radixDigit_digitChar a Ha), (radixDigit_digitChar b Hb),
    (radixDigit_digitChar c Hc), (radixDigit_digitChar d Hd).
  f_equal; lia.
Qed.

(** Reading the text of a calendar date gives its midnight, UTC. *)
Lemma parseDateOnly_isoDate (y m d : Z) :
  validDate y m d = true ->
  parseDateOnly (isoDate y m d) = utcMidnight y m d.
Proof.
  intros H. pose proof (validDate_bounds _ _ _ H) as (Hy & Hm & Hd).
  assert (Hd31 : d <= 31).
  { unfold DaysInMonth in Hd.
    destruct (m =? 2); [destruct (DaysInYear y =? 366)|
      destruct ((m =? 4) || (m =? 6) || (m =? 9) || (m =? 11))]; lia. }
  unfold parseDateOnly, isoDate, Text.chars.
  rewrite list_ascii_of_string_of_list_ascii.
  rewrite decimal_four, !decimal_two
    by (Z.to_euclidean_division_equations; lia).
  replace (1000 * (y / 1000) + 100 * (y / 100 mod 10) + 10 * (y / 10 mod 10)
           + y mod 10) with y by (Z.to_euclidean_division_equations; lia).
  replace (10 * (m / 10) + m mod 10) with m
    by (Z.to_euclidean_division_equations; lia).
  replace (10 * (d / 10) + d mod 10) with d
    by (Z.to_euclidean_division_equations; lia).
  reflexivity.
Qed.
End CalendarFacts.

(** X12. On every engine, two calendar dates written in the date-only
    form [YYYY-MM-DD] are compared as dates, and by the calendar: gt
    accepts iff the context date is the later day, gte iff it is the
    same or a later day, lt and lte likewise. *)
Theorem iso_dates_calendar_order (engine : Engine) (op : RuleOperator)
    (y m d y' m' d' : Z)
    (Hop : isOrdering op = true)
    (Hdate : validDate y m d = true)
    (Hdate' : validDate y' m' d' = true) :
  operatorsPredicate op (JSString (isoDate y m d)) (JSString (isoDate y' m' d'))
  = Ok (holds op (compareCalendar y m d y' m' d'))
  /\ isDate (JSString (isoDate y m d)) = Ok true.
Proof.
  pose proof (utcMidnight_valid _ _ _ Hdate) as Ht.
  pose proof (utcMidnight_valid _ _ _ Hdate') as Hu.
  assert (Hp : forall a b c,
             validDate a b c = true ->
             DateTime.parse (isoDate a b c) = DateTime.utcMidnight a b c).
  { intros a b c H. unfold DateTime.parse.
    rewrite (parseDateOnly_isoDate a b c H).
    now rewrite (utcMidnight_valid a b c H). }
  destruct (conversions_string (isoDate y m d)) as (_ & Hd1 & Ht1 & Hn1).
  destruct (conversions_string (isoDate y' m' d')) as (_ & Hd2 & Ht2 & Hn2).
  rewrite (Hp _ _ _ Hdate), Ht in Hd1, Ht1.
  rewrite (Hp _ _ _ Hdate'), Hu in Hd2, Ht2.
  split; [|exact Hd1].
  rewrite (ordering_converted op _ _ _ _ _ _ _ _ Hop Hd1 Hd2 Ht1 Ht2 Hn1 Hn2).
  cbn [DateTime.isNaN negb andb]. do 2 f_equal.
  rewrite <- Ht, <- Hu in *.
  apply utcMidnight_order; try assumption; now apply utcMidnight_valid.
Qed.

Lemma iso_dates_calendar_order_witness :
  isoDate 2024 2 29 = "2024-02-29"
  /\ isoDate 2023 12 31 = "2023-12-31"
  /\ @operatorsPredicate lenientEngine GT
       (JSString "2024-02-29") (JSString "2023-12-31") = Ok true.
Proof.
  split; [reflexivity|]. split; [reflexivity|].
  exact (proj1 (iso_dates_calendar_order lenientEngine GT
                  2024 2 29 2023 12 31 eq_refl eq_refl eq_refl)).
Defined.

(** * The order summary card *)

Module SummaryCardFacts.
Import SummaryCard.

Lemma own_assign {V} (o : ObjectOf V) (k k' : string) (v : V) :
  own (assign o k v) k' = if String.eqb k k' then Some v else own o k'.
Proof.
  induction o as [|[k0 w] o IH]; cbn [assign own].
  - reflexivity.
  - destruct (String.eqb_spec k0 k) as [->|Hk]; cbn [own].
    + destruct (String.eqb k k'); reflexivity.
    + rewrite IH. destruct (String.eqb_spec k0 k') as [->|Hk'];
        [|reflexivity].
      destruct (String.eqb_spec k k'); [congruence|reflexivity].
Qed.

Lemma reservationsOf_cons (r : ReservationItemDTO.t)
    (rs : list ReservationItemDTO.t) (k : string) :
  reservationsOf (r :: rs) k
  = if truthy (ReservationItemDTO.line_item_id r) && reservedFor k r
    then r :: reservationsOf rs k else reservationsOf rs k.
Proof.
  unfold reservationsOf, reservedFor, truthy.
  destruct k as [|c k].
  - destruct (ReservationItemDTO.line_item_id r) as [[|d k']|];
      reflexivity.
  - cbn [filter]. unfold reservedFor.
    destruct (ReservationItemDTO.line_item_id r) as [[|d k']|];
      reflexivity.
Qed.

Section Grouping.
Variable ObjectPrototype_has : string -> bool.

(** What the reduction gives from any accumulator, when it completes. *)
Lemma reduce_collect (rs : list ReservationItemDTO.t)
    (acc m : ObjectOf (list ReservationItemDTO.t)) :
  reduce (collect ObjectPrototype_has) rs acc = Ok m ->
  forall k,
    own m k = match reservationsOf rs k with
              | [] => own acc k
              | g => Some (match own acc k with
                           | Some g0 => g0 ++ g
                           | None => g
                           end)
              end.
Proof.
  revert acc. induction rs as [|r rs IH]; intros acc H k.
  - injection H as <-. now destruct k.
  - cbn [reduce] in H. rewrite reservationsOf_cons.
    unfold collect in H.
    destruct (truthy (ReservationItemDTO.line_item_id r)) eqn:Ht;
      cbn [negb andb] in *.
    + unfold reservedFor.
      destruct (ReservationItemDTO.line_item_id r) as [kr|];
        [|discriminate].
      assert (Hstep : forall acc',
                 reduce (collect ObjectPrototype_has) rs acc' = Ok m ->
                 (forall k', own acc' k'
                             = if String.eqb kr k'
                               then Some (match own acc kr with
                                          | Some g0 => g0 ++ [r]
                                          | None => [r]
                                          end)
                               else own acc k') ->
                 own m k
                 = (if String.eqb kr k
                    then
                     match r :: reservationsOf rs k with
                     | [] => own acc k
                     | g => Some (match own acc k with
                                  | Some g0 => g0 ++ g
                                  | None => g
                                  end)
                     end
                    else
                     match reservationsOf rs k with
                     | [] => own acc k
                     | g => Some (match own acc k with
                                  | Some g0 => g0 ++ g
                                  | None => g
                                  end)
                     end)).
      { intros acc' Hacc' Hown. rewrite (IH acc' Hacc' k), (Hown k).
        destruct (String.eqb_spec kr k) as [->|Hk]; [|reflexivity].
        destruct (reservationsOf rs k) as [|x g];
          destruct (own acc k) as [g0|]; try reflexivity.
        now rewrite <- app_assoc. }
      destruct (own acc kr) as [existing|] eqn:Hown.
      * cbn [bind] in H. rewrite (Hstep _ H).
        -- now destruct (String.eqb kr k).
        -- intros k'. now rewrite own_assign.
      * destruct (ObjectPrototype_has kr); [discriminate|].
        cbn [bind] in H. rewrite (Hstep _ H).
        -- now destruct (String.eqb kr k).
        -- intros k'. now rewrite own_assign.
    + cbn [bind] in H. exact (IH acc H k).
Qed.

(** The reduction completes iff it meets no inherited name that the
    accumulator does not own. *)
Lemma reduce_collect_completes (rs : list ReservationItemDTO.t)
    (acc : ObjectOf (list ReservationItemDTO.t)) :
  (forall k, own acc k <> None -> ObjectPrototype_has k = false) ->
  completes (reduce (collect ObjectPrototype_has) rs acc) = true
  <-> forall r k, In r rs -> ReservationItemDTO.line_item_id r = Some k ->
                  k <> "" -> ObjectPrototype_has k = false.
Proof.
  revert acc. induction rs as [|r rs IH]; intros acc Hacc.
  - simpl. split; [intros _ r k []|reflexivity].
  - cbn [reduce]. unfold collect.
    destruct (ReservationItemDTO.line_item_id r) as [[|c kr]|] eqn:Hr;
      cbn [truthy negb bind].
    + rewrite (IH acc Hacc). split.
      * intros H x k [<-|Hx] Hk Hne; [congruence|eauto].
      * intros H x k Hx. apply H. now right.
    + set (key := String c kr) in *.
      assert (Hnext : forall v,
                 ObjectPrototype_has key = false ->
                 forall k, own (assign acc key v) k <> None ->
                           ObjectPrototype_has k = false).
      { intros v Hkey k. rewrite own_assign.
        destruct (String.eqb_spec key k) as [<-|_]; auto. }
      destruct (own acc key) as [existing|] eqn:Hown.
      * assert (Hkey : ObjectPrototype_has key = false)
          by (apply Hacc; congruence).
        cbn [bind]. rewrite (IH _ (Hnext _ Hkey)). split.
        -- intros H x k [<-|Hx] Hk Hne; [|eauto].
           rewrite Hr in Hk. injection Hk as <-. exact Hkey.
        -- intros H x k Hx. apply H. now right.
      * destruct (ObjectPrototype_has key) eqn:Hkey; cbn [bind].
        -- split; [discriminate|]. intros H.
           rewrite (H r key (or_introl eq_refl) Hr) in Hkey;
             [discriminate|discriminate].
        -- rewrite (IH _ (Hnext [r] eq_refl)). split.
           ++ intros H x k [<-|Hx] Hk Hne; [|eauto].
              rewrite Hr in Hk. injection Hk as <-. exact Hkey.
           ++ intros H x k Hx. apply H. now right.
    + rewrite (IH acc Hacc). split.
      * intros H x k [<-|Hx] Hk Hne; [congruence|eauto].
      * intros H x k Hx. apply H. now right.
Qed.
End Grouping.

Lemma lookup_group (ObjectPrototype_has : string -> bool)
    (reservations : list ReservationItemDTO.t)
    (m : ObjectOf (list ReservationItemDTO.t)) :
  reservationItemsMap ObjectPrototype_has (Some reservations) true false
  = Ok m ->
  forall k, own m k = match reservationsOf reservations k with
                      | [] => None
                      | g => Some g
                      end.
Proof.
  intros H k. unfold reservationItemsMap in H.
  destruct reservations as [|r rs].
  - cbn in H. injection H as <-. now destruct k.
  - cbn [orb negb] in H.
    rewrite (reduce_collect _ _ _ _ H k). cbn [own].
    now destruct (reservationsOf (r :: rs) k).
Qed.

(** X13. With the inventory enabled and the reservations loaded, the
    map of the card has, under every non-empty line item identifier, the
    reservations made for that line item, in the order of the list, and
    nothing under an identifier that no reservation names; reservations
    without a line item are in no entry. Building it raises exactly when
    a reservation names a line item by the name of a property inherited
    from [Object.prototype]. With the inventory disabled, while loading,
    or without reservations the map is empty. *)
Theorem reservations_grouped (ObjectPrototype_has : string -> bool)
    (reservations : list ReservationItemDTO.t) :
  (completes (reservationItemsMap ObjectPrototype_has (Some reservations)
                true false) = true
   <-> forall r k, In r reservations ->
                   ReservationItemDTO.line_item_id r = Some k ->
                   k <> "" -> ObjectPrototype_has k = false)
  /\ (forall m,
        reservationItemsMap ObjectPrototype_has (Some reservations) true false
        = Ok m ->
        forall k, own m k = match reservationsOf reservations k with
                            | [] => None
                            | g => Some g
                            end)
  /\ (forall rs inventoryEnabled isLoading,
        inventoryEnabled = false \/ isLoading = true
        \/ rs = None \/ rs = Some [] ->
        reservationItemsMap ObjectPrototype_has rs inventoryEnabled isLoading
        = Ok []).
Proof.
  split; [|split].
  - unfold reservationItemsMap. destruct reservations as [|r rs].
    + simpl. split; [intros _ r k []|reflexivity].
    + cbn [orb negb]. apply reduce_collect_completes. intros k H.
      now elim H.
  - intros m H k. now apply (lookup_group ObjectPrototype_has).
  - intros rs e l H. unfold reservationItemsMap.
    destruct H as [->|[->|[->| ->]]]; try reflexivity.
    + destruct rs as [[|]|]; reflexivity.
    + destruct rs as [[|]|], e; reflexivity.
Qed.

(** X14. When the map was built from the reservations and no line item
    of the order is named like an inherited property, the order counts
    as allocated iff every line item has at least one reservation and
    the reserved quantities add up exactly to its quantity: a line item
    without reservations, or reserved below or beyond its quantity,
    makes it await allocation. On the empty map (inventory disabled, or
    still loading) an order is allocated iff it has no line item. *)
Theorem allocation_status (ObjectPrototype_has : string -> bool)
    (reservations : list ReservationItemDTO.t) (order : Order)
    (m : ObjectOf (list ReservationItemDTO.t))
    (Hmap : reservationItemsMap ObjectPrototype_has (Some reservations)
              true false = Ok m)
    (Hids : forall item, In item (items order) ->
                         ObjectPrototype_has (LineItem.id item) = false) :
  allItemsReserved ObjectPrototype_has m order
  = Ok (forallb (fullyReserved reservations) (items order))
  /\ allItemsReserved ObjectPrototype_has [] order
     = Ok (match items order with [] => true | _ :: _ => false end).
Proof.
  unfold allItemsReserved, Array_every. split.
  - induction (items order) as [|item l IH]; [reflexivity|].
    cbn [every_run forallb].
    rewrite (lookup_group _ _ _ Hmap (LineItem.id item)).
    unfold fullyReserved at 1.
    destruct (reservationsOf reservations (LineItem.id item)) as [|x g].
    + rewrite (Hids item (or_introl eq_refl)). reflexivity.
    + destruct (Num.equal _ _); [|reflexivity].
      destruct (every_run _ l) as [r seen]. simpl in *.
      apply IH. intros i Hi. apply Hids. now right.
  - destruct (items order) as [|item l]; [reflexivity|].
    cbn [every_run own]. rewrite (Hids item (or_introl eq_refl)).
    reflexivity.
Qed.

Lemma allocation_status_witness :
  exists m,
    reservationItemsMap sampleInherited (Some sampleReservations) true false
    = Ok m
    /\ allItemsReserved sampleInherited m sampleOrder = Ok true
    /\ allItemsReserved sampleInherited [] sampleOrder = Ok false.
Proof.
  eexists. split; [reflexivity|].
  apply (allocation_status sampleInherited sampleReservations sampleOrder
           _ eq_refl).
  intros item [<-|[]]. reflexivity.
Defined.

Lemma fold_addRefund (l : list Refund) (a b c : number) :
  fold_left addRefund l (a, b, c)
  = (fold_left add
       (map amount (filter (hasReason ["other"; "discount"]) l)) a,
     fold_left add (map amount (filter (hasReason ["swap"]) l)) b,
     fold_left add (map amount (filter (hasReason ["return"]) l)) c).
Proof.
  revert a b c. induction l as [|ref l IH]; intros a b c; [reflexivity|].
  assert (H1 : hasReason ["other"; "discount"] ref
               = String.eqb (reason ref) "other"
                 || String.eqb (reason ref) "discount")
    by (unfold hasReason; cbn [existsb]; now rewrite orb_false_r).
  assert (H2 : hasReason ["swap"] ref = String.eqb (reason ref) "swap")
    by (unfold hasReason; cbn [existsb]; now rewrite orb_false_r).
  assert (H3 : hasReason ["return"] ref = String.eqb (reason ref) "return")
    by (unfold hasReason; cbn [existsb]; now rewrite orb_false_r).
  cbn [fold_left filter]. rewrite H1, H2, H3.
  replace (addRefund (a, b, c) ref)
    with (if String.eqb (reason ref) "other"
             || String.eqb (reason ref) "discount"
          then add a (amount ref) else a,
          if String.eqb (reason ref) "swap" then add b (amount ref) else b,
          if String.eqb (reason ref) "return" then add c (amount ref) else c)
    by reflexivity.
  destruct (String.eqb (reason ref) "other" || String.eqb (reason ref) "discount"),
    (String.eqb (reason ref) "swap"), (String.eqb (reason ref) "return");
    cbn [map fold_left]; apply IH.
Qed.

Lemma movements_totals (order : Order) :
  manualRefund (movements order)
  = refunded ["other"; "discount"] (refundsOf order)
  /\ swapRefund (movements order) = refunded ["swap"] (refundsOf order)
  /\ returnRefund (movements order) = refunded ["return"] (refundsOf order)
  /\ swapAmount (movements order) = sum (map difference_due (swaps order)).
Proof.
  unfold movements, refundsOf, refunded.
  destruct (refunds order) as [[|ref rest]|]; try (repeat split; reflexivity).
  rewrite fold_addRefund. repeat split; reflexivity.
Qed.

Lemma movements_determined (order order' : Order) :
  swaps order' = swaps order ->
  (forall reasons,
      In reasons [["other"; "discount"]; ["swap"]; ["return"]] ->
      refunded reasons (refundsOf order') = refunded reasons (refundsOf order)) ->
  movements order' = movements order.
Proof.
  intros Hs Hr.
  destruct (movements_totals order) as (M & S & R & A).
  destruct (movements_totals order') as (M' & S' & R' & A').
  rewrite Hs, <- A in A'.
  rewrite Hr, <- M in M' by (simpl; auto).
  rewrite Hr, <- S in S' by (simpl; auto).
  rewrite Hr, <- R in R' by (simpl; auto).
  assert (H : forall o,
             hasMovements (movements o)
             = negb (Num.equal
                       (add (add (add (swapAmount (movements o))
                                      (manualRefund (movements o)))
                                 (swapRefund (movements o)))
                            (returnRefund (movements o)))
                       (Num.zero false))).
  { intros o. unfold movements.
    destruct (match refunds o with
              | Some (ref :: rest) => _
              | _ => _
              end) as [[x y] z]. reflexivity. }
  pose proof (H order) as Ho. pose proof (H order') as Ho'.
  rewrite A', M', S', R', <- Ho in Ho'.
  destruct (movements order), (movements order'). simpl in *. congruence.
Qed.

(** X15. The three refund totals of the card are sums over the refunds
    taken by reason, each added from the left to 0: other and discount
    for the manual total, swap for the swap total, return for the return
    total, and the swap amount is the sum of the differences due. A
    refund with any other reason enters none of them, so it changes
    nothing the card shows about movements; an order without refunds and
    without swaps has no movements. *)
Theorem refund_totals (order : Order) :
  manualRefund (movements order)
  = refunded ["other"; "discount"] (refundsOf order)
  /\ swapRefund (movements order) = refunded ["swap"] (refundsOf order)
  /\ returnRefund (movements order) = refunded ["return"] (refundsOf order)
  /\ swapAmount (movements order) = sum (map difference_due (swaps order))
  /\ (forall l1 ref l2,
        refunds order = Some (l1 ++ ref :: l2) ->
        hasReason ["other"; "discount"; "swap"; "return"] ref = false ->
        movements order
        = movements {| items := items order; swaps := swaps order;
                       refunds := Some (l1 ++ l2) |})
  /\ (swaps order = [] -> refundsOf order = [] ->
      movements order
      = {| hasMovements := false;
           swapAmount := Num.zero false; manualRefund := Num.zero false;
           swapRefund := Num.zero false; returnRefund := Num.zero false |}).
Proof.
  destruct (movements_totals order) as (M & S & R & A).
  repeat (split; [assumption|]). split.
  - intros l1 ref l2 Hr Hreason. symmetry.
    apply movements_determined; [reflexivity|].
    unfold hasReason in Hreason. cbn [existsb] in Hreason.
    destruct (String.eqb (reason ref) "other") eqn:E1; [discriminate|].
    destruct (String.eqb (reason ref) "discount") eqn:E2; [discriminate|].
    destruct (String.eqb (reason ref) "swap") eqn:E3; [discriminate|].
    destruct (String.eqb (reason ref) "return") eqn:E4; [discriminate|].
    intros reasons Hin. unfold refundsOf. cbn [refunds]. rewrite Hr.
    unfold refunded. rewrite !filter_app. cbn [filter].
    replace (hasReason reasons ref) with false; [reflexivity|].
    unfold hasReason.
    destruct Hin as [<-|[<-|[<-|[]]]]; cbn [existsb];
      rewrite ?E1, ?E2, ?E3, ?E4; reflexivity.
  - intros Hs Hr. unfold movements, refundsOf in *. rewrite Hs.
    destruct (refunds order) as [l|]; [subst l|]; reflexivity.
Qed.

Lemma refund_totals_witness :
  let amount s := StringToNumber s in
  let order l := {| items := []; swaps := []; refunds := Some l |} in
  movements
    (order [ {| amount := amount "500"; reason := "return" |};
             {| amount := amount "300"; reason := "claim" |};
             {| amount := amount "200"; reason := "other" |} ])
  = movements
      (order [ {| amount := amount "500"; reason := "return" |};
               {| amount := amount "200"; reason := "other" |} ]).
Proof.
  cbv zeta.
  destruct (refund_totals
              {| items := []; swaps := [];
                 refunds :=
                   Some [ {| amount := StringToNumber "500"; reason := "return" |};
                          {| amount := StringToNumber "300"; reason := "claim" |};
                          {| amount := StringToNumber "200"; reason := "other" |} ] |})
    as (_ & _ & _ & _ & H & _).
  exact (H [ {| amount := StringToNumber "500"; reason := "return" |} ]
           {| amount := StringToNumber "300"; reason := "claim" |}
           [ {| amount := StringToNumber "200"; reason := "other" |} ]
           eq_refl eq_refl).
Defined.
End SummaryCardFacts.

(** ** Numerals of four digits *)

Lemma parseDateOnly_fourDigits (n : Z) :
  (0 <= n <= 9999)%Z ->
  DateTime.parseDateOnly (fourDigits n) = DateTime.utcMidnight n 1 1.
Proof.
  intros H. unfold DateTime.parseDateOnly, fourDigits, Text.chars.
  rewrite list_ascii_of_string_of_list_ascii.
  rewrite decimal_four by (Z.to_euclidean_division_equations; lia).
  replace (1000 * (n / 1000) + 100 * (n / 100 mod 10) + 10 * (n / 10 mod 10)
           + n mod 10)%Z with n by (Z.to_euclidean_division_equations; lia).
  reflexivity.
Qed.

Lemma validDate_january (n : Z) :
  (0 <= n <= 9999)%Z -> validDate n 1 1 = true.
Proof.
  intros H. unfold validDate.
  change (DateTime.DaysInMonth n 1) with 31%Z. lia.
Qed.

(** X16. Two numerals of four digits are both read as years, so an
    ordering operator compares them on the date path, on every engine;
    the outcome is nevertheless the one of their numeric order. *)
Theorem four_digit_numerals (engine : Engine) (op : RuleOperator)
    (n n' : Z)
    (Hop : isOrdering op = true)
    (Hn : (0 <= n <= 9999)%Z) (Hn' : (0 <= n' <= 9999)%Z) :
  isDate (JSString (fourDigits n)) = Ok true
  /\ isDate (JSString (fourDigits n')) = Ok true
  /\ operatorsPredicate op (JSString (fourDigits n)) (JSString (fourDigits n'))
     = Ok (holds op (n ?= n')%Z).
Proof.
  pose proof (validDate_january n Hn) as V.
  pose proof (validDate_january n' Hn') as V'.
  assert (Hp : forall k, (0 <= k <= 9999)%Z ->
             exists t, DateTime.parse (fourDigits k) = Some t
                       /\ DateTime.utcMidnight k 1 1 = Some t).
  { intros k Hk. unfold DateTime.parse.
    rewrite (parseDateOnly_fourDigits k Hk).
    rewrite (utcMidnight_valid k 1 1 (validDate_january k Hk)).
    eexists. split; reflexivity. }
  destruct (Hp n Hn) as (t & Pt & Ut). destruct (Hp n' Hn') as (u & Pu & Uu).
  destruct (conversions_string (fourDigits n)) as (_ & Hd1 & Ht1 & Hn1).
  destruct (conversions_string (fourDigits n')) as (_ & Hd2 & Ht2 & Hn2).
  rewrite Pt in Hd1, Ht1. rewrite Pu in Hd2, Ht2.
  split; [exact Hd1|]. split; [exact Hd2|].
  rewrite (ordering_converted op _ _ _ _ _ _ _ _ Hop Hd1 Hd2 Ht1 Ht2 Hn1 Hn2).
  cbn [DateTime.isNaN negb andb]. do 2 f_equal.
  rewrite (utcMidnight_order n 1 1 n' 1 1 t u V V' Ut Uu).
  unfold compareCalendar. now destruct (n ?= n')%Z.
Qed.

Lemma four_digit_numerals_witness :
  fourDigits 1000 = "1000" /\ fourDigits 999 = "0999"
  /\ @operatorsPredicate lenientEngine GT (JSString "1000") (JSString "0999")
     = Ok true.
Proof.
  split; [reflexivity|]. split; [reflexivity|].
  apply (four_digit_numerals lenientEngine GT 1000 999 eq_refl); lia.
Defined.

(** * The system tax provider *)

Module SystemTaxServiceFacts.
Import SystemTaxService.

Lemma rateOrZero_number (r : TaxServiceRate.t) :
  Num.isNaN (rateOrZero r) = false /\ rateOrZero r <> Num.zero true.
Proof.
  unfold rateOrZero. destruct (TaxServiceRate.rate r) as [[s|s| |s m e]|];
    simpl; split; try reflexivity; discriminate.
Qed.

(** [r.rate || 0], case by case. *)
Lemma rateOrZero_given (r : TaxServiceRate.t) :
  rateOrZero r
  = match TaxServiceRate.rate r with
    | Some (S754_zero _) | Some S754_nan | None => Num.zero false
    | Some n => n
    end.
Proof.
  unfold rateOrZero.
  destruct (TaxServiceRate.rate r) as [[s|s| |s m e]|]; reflexivity.
Qed.

(** A field of the lines made from the rates of calculation lines. *)
Lemma map_flat_map_map {L R T U} (g : T -> U) (rates : L -> list R)
    (f : L -> R -> T) (lines : list L) :
  map g (flat_map (fun l => map (f l) (rates l)) lines)
  = flat_map (fun l => map (fun r => g (f l r)) (rates l)) lines.
Proof.
  induction lines as [|l lines IH]; [reflexivity|].
  cbn [flat_map]. now rewrite map_app, map_map, IH.
Qed.

Lemma length_flat_map_rates {L} (rates : L -> list TaxServiceRate.t)
    (f : L -> TaxServiceRate.t -> ProviderTaxLine.t) (lines : list L) :
  List.length (flat_map (fun l => map (f l) (rates l)) lines)
  = countRates rates lines.
Proof.
  induction lines as [|l lines IH]; [reflexivity|].
  cbn [flat_map countRates fold_right].
  rewrite length_app, length_map. f_equal. exact IH.
Qed.

(** X17. [getTaxLines] of the system provider returns one tax line for
    every rate of every item line, in the order of the lines and of the
    rates of each line, followed by one for every rate of every shipping
    line: as many lines as there are rates. The tax line of a rate
    carries the name and the code of that rate and the id of its item
    or of its shipping method, never both; its rate is the rate given,
    or 0 when that is missing, zero or NaN, so it is never NaN. *)
Theorem tax_lines {TaxCalculationContext : Type}
    (itemLines : list ItemTaxCalculationLine.t)
    (shippingLines : list ShippingTaxCalculationLine.t)
    (context : TaxCalculationContext) :
  let taxLines := getTaxLines itemLines shippingLines context in
  let given r :=
    match TaxServiceRate.rate r with
    | Some (S754_zero _) | Some S754_nan | None => Num.zero false
    | Some n => n
    end in
  let ofItem l r :=
    {| ProviderTaxLine.rate := given r;
       ProviderTaxLine.name := TaxServiceRate.name r;
       ProviderTaxLine.code := TaxServiceRate.code r;
       ProviderTaxLine.item_id :=
         Some (SummaryCard.LineItem.id (ItemTaxCalculationLine.item l));
       ProviderTaxLine.shipping_method_id := None |} in
  let ofShipping l r :=
    {| ProviderTaxLine.rate := given r;
       ProviderTaxLine.name := TaxServiceRate.name r;
       ProviderTaxLine.code := TaxServiceRate.code r;
       ProviderTaxLine.item_id := None;
       ProviderTaxLine.shipping_method_id :=
         Some (ShippingMethod.id
                 (ShippingTaxCalculationLine.shipping_method l)) |} in
  List.length taxLines
  = (countRates ItemTaxCalculationLine.rates itemLines
     + countRates ShippingTaxCalculationLine.rates shippingLines)%nat
  /\ taxLines
     = getTaxLines itemLines [] context ++ getTaxLines [] shippingLines context
  /\ (forall l lines,
        getTaxLines (l :: lines) [] context
        = map (ofItem l) (ItemTaxCalculationLine.rates l)
          ++ getTaxLines lines [] context)
  /\ (forall l lines,
        getTaxLines [] (l :: lines) context
        = map (ofShipping l) (ShippingTaxCalculationLine.rates l)
          ++ getTaxLines [] lines context)
  /\ getTaxLines [] [] context = []
  /\ map ProviderTaxLine.name taxLines
     = flat_map (fun l => map TaxServiceRate.name
                            (ItemTaxCalculationLine.rates l)) itemLines
       ++ flat_map (fun l => map TaxServiceRate.name
                               (ShippingTaxCalculationLine.rates l))
            shippingLines
  /\ map ProviderTaxLine.code taxLines
     = flat_map (fun l => map TaxServiceRate.code
                            (ItemTaxCalculationLine.rates l)) itemLines
       ++ flat_map (fun l => map TaxServiceRate.code
                               (ShippingTaxCalculationLine.rates l))
            shippingLines
  /\ map ProviderTaxLine.rate taxLines
     = flat_map (fun l => map given (ItemTaxCalculationLine.rates l))
         itemLines
       ++ flat_map (fun l => map given (ShippingTaxCalculationLine.rates l))
            shippingLines
  /\ map ProviderTaxLine.item_id taxLines
     = flat_map
         (fun l =>
            map (fun _ => Some (SummaryCard.LineItem.id
                                  (ItemTaxCalculationLine.item l)))
              (ItemTaxCalculationLine.rates l)) itemLines
       ++ flat_map
            (fun l => map (fun _ => None) (ShippingTaxCalculationLine.rates l))
            shippingLines
  /\ map ProviderTaxLine.shipping_method_id taxLines
     = flat_map
         (fun l => map (fun _ => None) (ItemTaxCalculationLine.rates l))
         itemLines
       ++ flat_map
            (fun l =>
               map (fun _ => Some (ShippingMethod.id
                                     (ShippingTaxCalculationLine.shipping_method
                                        l)))
                 (ShippingTaxCalculationLine.rates l)) shippingLines
  /\ (forall t,
        In t taxLines <->
        (exists l r, In l itemLines /\ In r (ItemTaxCalculationLine.rates l)
                     /\ t = ofItem l r)
        \/ (exists l r, In l shippingLines
                        /\ In r (ShippingTaxCalculationLine.rates l)
                        /\ t = ofShipping l r))
  /\ (forall t, In t taxLines ->
        Num.isNaN (ProviderTaxLine.rate t) = false
        /\ (ProviderTaxLine.item_id t = None
            <-> ProviderTaxLine.shipping_method_id t <> None))
  /\ (forall i1 i2 s1 s2,
        getTaxLines (i1 ++ i2) (s1 ++ s2) context
        = getTaxLines i1 [] context ++ getTaxLines i2 [] context
          ++ getTaxLines [] s1 context ++ getTaxLines [] s2 context).
Proof.
  cbv zeta.
  assert (Hitem : forall l r,
    itemTaxLine l r
    = {| ProviderTaxLine.rate :=
           match TaxServiceRate.rate r with
           | Some (S754_zero _) | Some S754_nan | None => Num.zero false
           | Some n => n
           end;
         ProviderTaxLine.name := TaxServiceRate.name r;
         ProviderTaxLine.code := TaxServiceRate.code r;
         ProviderTaxLine.item_id :=
           Some (SummaryCard.LineItem.id (ItemTaxCalculationLine.item l));
         ProviderTaxLine.shipping_method_id := None |}).
  { intros l r. unfold itemTaxLine. now rewrite rateOrZero_given. }
  assert (Hship : forall l r,
    shippingTaxLine l r
    = {| ProviderTaxLine.rate :=
           match TaxServiceRate.rate r with
           | Some (S754_zero _) | Some S754_nan | None => Num.zero false
           | Some n => n
           end;
         ProviderTaxLine.name := TaxServiceRate.name r;
         ProviderTaxLine.code := TaxServiceRate.code r;
         ProviderTaxLine.item_id := None;
         ProviderTaxLine.shipping_method_id :=
           Some (ShippingMethod.id
                   (ShippingTaxCalculationLine.shipping_method l)) |}).
  { intros l r. unfold shippingTaxLine. now rewrite rateOrZero_given. }
  unfold getTaxLines.
  assert (Hin : forall t,
    In t (flat_map (fun l => map (itemTaxLine l) (ItemTaxCalculationLine.rates l))
            itemLines
          ++ flat_map
               (fun l => map (shippingTaxLine l)
                           (ShippingTaxCalculationLine.rates l))
               shippingLines) <->
    (exists l r, In l itemLines /\ In r (ItemTaxCalculationLine.rates l)
                 /\ t = itemTaxLine l r)
    \/ (exists l r, In l shippingLines
                    /\ In r (ShippingTaxCalculationLine.rates l)
                    /\ t = shippingTaxLine l r)).
  { intros t. rewrite in_app_iff, !in_flat_map. split.
    - intros [(l & Hl & Ht)|(l & Hl & Ht)]; apply in_map_iff in Ht;
        destruct Ht as (r & <- & Hr); [left|right]; exists l, r; auto.
    - intros [(l & r & Hl & Hr & ->)|(l & r & Hl & Hr & ->)];
        [left|right]; exists l; split; auto; now apply in_map. }
  split; [now rewrite length_app, !length_flat_map_rates|].
  split; [cbn [flat_map]; now rewrite app_nil_r|].
  split.
  { intros l lines. cbn [flat_map]. rewrite !app_nil_r. f_equal.
    apply map_ext. intros r. apply Hitem. }
  split.
  { intros l lines. cbn [flat_map app]. f_equal.
    apply map_ext. intros r. apply Hship. }
  split; [reflexivity|].
  split; [rewrite map_app, !map_flat_map_map; reflexivity|].
  split; [rewrite map_app, !map_flat_map_map; reflexivity|].
  split.
  { rewrite map_app, !map_flat_map_map. f_equal;
      apply flat_map_ext; intros l; apply map_ext; intros r;
      apply rateOrZero_given. }
  split; [rewrite map_app, !map_flat_map_map; reflexivity|].
  split; [rewrite map_app, !map_flat_map_map; reflexivity|].
  split.
  { intros t. rewrite Hin. split.
    - intros [(l & r & Hl & Hr & ->)|(l & r & Hl & Hr & ->)];
        [left|right]; exists l, r; auto.
    - intros [(l & r & Hl & Hr & ->)|(l & r & Hl & Hr & ->)];
        [left|right]; exists l, r; auto. }
  split.
  { intros t Ht. apply Hin in Ht.
    destruct Ht as [(l & r & _ & _ & ->)|(l & r & _ & _ & ->)]; simpl;
      (split; [apply rateOrZero_number|]);
      split; congruence || discriminate. }
  intros i1 i2 s1 s2. cbn [flat_map].
  rewrite !flat_map_app, !app_nil_r. now rewrite <- !app_assoc.
Qed.
End SystemTaxServiceFacts.
